(** * Virgundia: the game orchestrator and its canvas

    A shallow embedding of [src/components/game/game.ts] (class [Game]) and of
    the canvas wrapper (class [Canvas]), with the properties of the encounter
    sampler, of the input gate and of the font setter.

    Conventions.
    - JavaScript numbers: coordinates, difficulty, rarity, levels and health are
      integers ([Z]); a value drawn by [Math.random] and whatever is computed
      from it is a rational ([Q]).  Every finite double is a rational and the
      comparisons of the source are exact on them.  The three operations
      that [checkForEncounters] does on its draws are taken from an
      [Arithmetic]: [exact] computes them without rounding, [doubles] with
      the rounding of the binary64 numbers.
    - The methods of [Game] are programs of a small monad [Prog] whose
      operations are the observable calls of the source: reading the state
      store, dispatching to it, drawing a random number, emitting an event,
      redrawing, awaiting the network.  [exec] runs a program on a [Machine]
      and records every call in a log. *)

From Stdlib Require Import ZArith QArith Qround List String Ascii Bool Lia Lqa.
From Stdlib Require Import DecimalString.
From Stdlib Require Floats Uint63.
Import ListNotations.

Set Implicit Arguments.
Set Warnings "-register-all".

Open Scope string_scope.
Open Scope Z_scope.

(** ** JavaScript values *)

(** The values that travel through window contents, request payloads and
    response bodies.  A [Set] keeps its elements in insertion order. *)
Inductive Value : Type :=
| VUndefined
| VNull
| VBool (b : bool)
| VInt (z : Z)
| VStr (s : string)
| VArr (elements : list Value)
| VObj (fields : list (string * Value))
| VSet (members : list Value).

Inductive JsError : Type :=
| TypeError      (* property access on [undefined] or [null] *)
| SyntaxError    (* [resp.json()] on a body that is not JSON *)
| FetchFailed.   (* [fetch] rejected: the network failed *)

(** How a promise settles. *)
Inductive Settled (A : Type) : Type :=
| Fulfilled (a : A)
| Rejected (e : JsError).
Arguments Rejected {A} e.

(** Conversion of an integer by a template literal: its decimal digits. *)
Definition Number_toString (z : Z) : string :=
  NilZero.string_of_int (Z.to_int z).

(** Conversion of [string | null] by a template literal. *)
Definition nullable_toString (s : option string) : string :=
  match s with
  | Some s => s
  | None => "null"
  end.

(** [o[key]] on an object given by its fields. *)
Fixpoint lookup_field (key : string) (fields : list (string * Value)) : Value :=
  match fields with
  | [] => VUndefined
  | (k, v) :: rest => if String.eqb k key then v else lookup_field key rest
  end.

(** [data.key]: a [TypeError] on [undefined] and [null], [undefined] on a
    value without that property. *)
Definition get_property (data : Value) (key : string) : Settled Value :=
  match data with
  | VUndefined | VNull => Rejected TypeError
  | VObj fields => Fulfilled (lookup_field key fields)
  | _ => Fulfilled VUndefined
  end.

(** ** Data model *)

Record Position : Type := { pos_x : Z; pos_y : Z }.

(** Modelled from the spec: the type [Terrain] of [index.t] (type identifier,
    display label, color, integer difficulty). *)
Record Terrain : Type := {
  terrain_type : string;
  label : string;
  color : string;
  difficulty : Z
}.

(** What [World.getTerrain] returns. *)
Record TerrainInfo : Type := {
  terrain : Terrain;
  biomeName : string
}.

(** An element of what [World.getAdjacentTerrain] returns. *)
Record AdjacentTerrain : Type := {
  adj_x : Z;
  adj_y : Z;
  adj_terrain : TerrainInfo
}.

(** Modelled from the spec: the type [Monster] of [dataFiles/monsters] (name,
    rarity, min/max level, base health, allowed biomes, flavor fields).  The
    flavor fields are only copied, so they are kept as values. *)
Record Monster : Type := {
  abilities : Value;
  aggression : Value;
  baseHealth : Z;
  behavior : Value;
  description : Value;
  intelligence : Value;
  lore : Value;
  maxLevel : Z;
  minLevel : Z;
  name : string;
  rarity : Z;
  size : Value;
  validBiomes : list string
}.

(** The object literal [monster] built by [checkForEncounters]. *)
Record MonsterInstance : Type := {
  mi_abilities : Value;
  mi_aggression : Value;
  mi_behavior : Value;
  mi_description : Value;
  mi_intelligence : Value;
  mi_level : Z;
  mi_lore : Value;
  mi_maxHealth : Z;
  mi_name : string;
  mi_size : Value
}.

Record WindowData : Type := {
  buttons : list string;       (* the labels of the buttons *)
  content : list Value;
  title : string
}.

Record PlayerState : Type := {
  p_abilities : list string;
  p_conditions : list string;
  energy : Z;
  health : Z;
  maxEnergy : Z;
  maxHealth : Z;
  position : Position;
  requirements : list string;
  warned : bool;
  xp : Z
}.

Record UiState : Type := {
  isPaused : bool;
  windows : list WindowData
}.

Record WorldState : Type := {
  currentBiome : option string;
  currentTerrain : option Terrain
}.

Record GameState : Type := {
  player : PlayerState;
  ui : UiState;
  world : WorldState
}.

(** [Game.createInitialState] *)
Definition createInitialState : GameState := {|
  player := {|
    p_abilities := [];
    p_conditions := [];
    energy := 100;
    health := 100;
    maxEnergy := 100;
    maxHealth := 100;
    position := {| pos_x := 0; pos_y := 0 |};
    requirements := [];
    warned := false;
    xp := 0
  |};
  ui := {| isPaused := false; windows := [] |};
  world := {| currentBiome := None; currentTerrain := None |}
|}.

Inductive GameEvents : Type :=
| PLAYER_MOVE
| WINDOW_OPEN (windowData : WindowData)
| WINDOW_CLOSE.

(** ** The state store *)

(** The partial updates that are dispatched: [('ui', {isPaused})],
    [('world', {currentBiome, currentTerrain})] and, by the player,
    [('player', {position})]. *)
Inductive Update : Type :=
| ui_isPaused (b : bool)
| world_info (biome : option string) (t : option Terrain)
| player_position (p : Position).

(** Modelled from the spec: [StateManager.dispatch], the shallow merge of a
    partial update into the named subtree; the fields the update lacks and the
    other subtrees are kept. *)
Definition merge (s : GameState) (u : Update) : GameState :=
  match u with
  | ui_isPaused b =>
      {| player := player s;
         ui := {| isPaused := b; windows := windows (ui s) |};
         world := world s |}
  | world_info b t =>
      {| player := player s;
         ui := ui s;
         world := {| currentBiome := b; currentTerrain := t |} |}
  | player_position p =>
      {| player := {|
           p_abilities := p_abilities (player s);
           p_conditions := p_conditions (player s);
           energy := energy (player s);
           health := health (player s);
           maxEnergy := maxEnergy (player s);
           maxHealth := maxHealth (player s);
           position := p;
           requirements := requirements (player s);
           warned := warned (player s);
           xp := xp (player s) |};
         ui := ui s;
         world := world s |}
  end.

(** ** Requests *)

Record Request : Type := {
  url : string;
  body : string;
  headers : list (string * string);
  method : string
}.

(** A response, with what its [json()] promise settles to. *)
Record Response : Type := {
  status : Z;
  json : Settled Value
}.

(** ** Programs *)

(** The methods of the player that the input handler calls. *)
Inductive PlayerCall : Type :=
| move (dx dy : Z)
| rest
| openInventory
| search.

(** One constructor per observable call of the source.  [Spawn p k] calls the
    async function [p] without awaiting it: [p] runs up to its first [await]
    and the caller goes on with [k]. *)
Inductive Prog (A : Type) : Type :=
| Ret (a : A)
| Throw (e : JsError)
| GetState (k : GameState -> Prog A)
| Dispatch (u : Update) (k : Prog A)
| MathRandom (k : Q -> Prog A)
| Emit (e : GameEvents) (k : Prog A)
| Draw (k : Prog A)
| NewWindow (w : WindowData) (k : Prog A)
| CallPlayer (c : PlayerCall) (k : Prog A)
| AwaitFetch (req : Request) (k : Response -> Prog A)
| AwaitJson (resp : Response) (k : Value -> Prog A)
| Spawn (p : Prog unit) (k : Prog A).

Arguments Throw {A} e.
Arguments GetState {A} k.
Arguments Dispatch {A} u k.
Arguments MathRandom {A} k.
Arguments Emit {A} e k.
Arguments Draw {A} k.
Arguments NewWindow {A} w k.
Arguments CallPlayer {A} c k.
Arguments AwaitFetch {A} req k.
Arguments AwaitJson {A} resp k.
Arguments Spawn {A} p k.

Fixpoint bind {A B : Type} (p : Prog A) (f : A -> Prog B) : Prog B :=
  match p with
  | Ret a => f a
  | Throw e => Throw e
  | GetState k => GetState (fun s => bind (k s) f)
  | Dispatch u k => Dispatch u (bind k f)
  | MathRandom k => MathRandom (fun r => bind (k r) f)
  | Emit e k => Emit e (bind k f)
  | Draw k => Draw (bind k f)
  | NewWindow w k => NewWindow w (bind k f)
  | CallPlayer c k => CallPlayer c (bind k f)
  | AwaitFetch req k => AwaitFetch req (fun r => bind (k r) f)
  | AwaitJson resp k => AwaitJson resp (fun v => bind (k v) f)
  | Spawn p k => Spawn p (bind k f)
  end.

Declare Scope prog_scope.
Delimit Scope prog_scope with prog.
Notation "x <- p ;; q" := (bind p (fun x => q))
  (at level 61, p at next level, right associativity) : prog_scope.
Notation "p ;; q" := (bind p (fun _ => q))
  (at level 61, right associativity) : prog_scope.
Open Scope prog_scope.

(** The result of an expression that may throw. *)
Definition lift {A : Type} (r : Settled A) : Prog A :=
  match r with
  | Fulfilled a => Ret a
  | Rejected e => Throw e
  end.

(** ** Running programs *)

Inductive Effect : Type :=
| EDispatch (u : Update)
| ERandom (r : Q)
| EEmit (e : GameEvents)
| EDraw
| ENewWindow (w : WindowData)
| EPlayer (c : PlayerCall)
| EFetch (req : Request)
| EJson (resp : Response)
| EUnhandledRejection (e : JsError).

(** A suspended async call of [Game]: what it awaits and how it goes on. *)
Inductive Task : Type :=
| OnFetch (req : Request) (k : Response -> Prog unit)
| OnJson (resp : Response) (k : Value -> Prog unit).

Record Machine : Type := {
  store : GameState;
  rng : nat -> Q;            (* the values [Math.random] returns, in order *)
  drawn : nat;               (* how many of them were drawn *)
  log : list Effect;         (* the calls made, oldest first *)
  tasks : list Task          (* the suspended async calls *)
}.

Definition record (ev : Effect) (m : Machine) : Machine :=
  {| store := store m; rng := rng m; drawn := drawn m;
     log := log m ++ [ev]; tasks := tasks m |}.

Definition set_store (s : GameState) (m : Machine) : Machine :=
  {| store := s; rng := rng m; drawn := drawn m;
     log := log m; tasks := tasks m |}.

Definition draw_next (m : Machine) : Machine :=
  {| store := store m; rng := rng m; drawn := S (drawn m);
     log := log m; tasks := tasks m |}.

Definition suspend (t : Task) (m : Machine) : Machine :=
  {| store := store m; rng := rng m; drawn := drawn m;
     log := log m; tasks := tasks m ++ [t] |}.

(** How a run ends: with a value, with an exception, or at an [await]. *)
Inductive Step (A : Type) : Type :=
| Done (a : A)
| Failed (e : JsError)
| AwaitingFetch (req : Request) (k : Response -> Prog A)
| AwaitingJson (resp : Response) (k : Value -> Prog A).
Arguments Failed {A} e.
Arguments AwaitingFetch {A} req k.
Arguments AwaitingJson {A} resp k.

Fixpoint exec {A : Type} (p : Prog A) (m : Machine) : Machine * Step A :=
  match p with
  | Ret a => (m, Done a)
  | Throw e => (m, Failed e)
  | GetState k => exec (k (store m)) m
  | Dispatch u k => exec k (record (EDispatch u) (set_store (merge (store m) u) m))
  | MathRandom k =>
      let r := rng m (drawn m) in
      exec (k r) (record (ERandom r) (draw_next m))
  | Emit e k => exec k (record (EEmit e) m)
  | Draw k => exec k (record EDraw m)
  | NewWindow w k => exec k (record (ENewWindow w) m)
  | CallPlayer c k => exec k (record (EPlayer c) m)
  | AwaitFetch req k => (record (EFetch req) m, AwaitingFetch req k)
  | AwaitJson resp k => (record (EJson resp) m, AwaitingJson resp k)
  | Spawn p k =>
      match exec p m with
      | (m', Done _) => exec k m'
      | (m', Failed e) => exec k (record (EUnhandledRejection e) m')
      | (m', AwaitingFetch req k') => exec k (suspend (OnFetch req k') m')
      | (m', AwaitingJson resp k') => exec k (suspend (OnJson resp k') m')
      end
  end.

(** The continuation of an [await] once the awaited promise settled: a
    rejection is thrown at the [await]. *)
Definition settle {A B : Type} (o : Settled A) (k : A -> Prog B) : Prog B :=
  match o with
  | Fulfilled a => k a
  | Rejected e => Throw e
  end.

(** An async call run to its end: [fetched] is how the promise of [fetch]
    settles, and the response says how [json()] does. *)
Definition exec_async {A : Type} (p : Prog A) (fetched : Settled Response)
    (m : Machine) : Machine * Step A :=
  match exec p m with
  | (m1, AwaitingFetch _ k) =>
      match exec (settle fetched k) m1 with
      | (m2, AwaitingJson resp k') => exec (settle (json resp) k') m2
      | r => r
      end
  | r => r
  end.

(** ** Numbers *)

Open Scope Q_scope.

(** [x > y] and [x < y] on numbers. *)
Definition Qgtb (x y : Q) : bool := negb (Qle_bool x y).
Definition Qltb (x y : Q) : bool := negb (Qle_bool y x).

(** [Math.round]: the nearest integer, a half rounding up. *)
Definition Math_round (x : Q) : Z := Qfloor (x + (1 # 2)).

Close Scope Q_scope.

(** [Math.max(...xs)].  With no argument JavaScript returns [-Infinity], which
    is no integer; [checkForEncounters] reads the maximum only in the
    callbacks of [reduce] and [find], which run once per candidate, so with
    no candidate the value is never read (see [no_candidate_no_weight]) and
    the model returns [0] there. *)
Definition Math_max (xs : list Z) : Z :=
  match xs with
  | [] => 0
  | x :: others => fold_left Z.max others x
  end.

(** [biomes.includes(biome)] for [biome : string | null] and an array of
    strings. *)
Definition includes (biomes : list string) (biome : option string) : bool :=
  match biome with
  | Some b => existsb (String.eqb b) biomes
  | None => false
  end.

(** ** The encounter sampler, step by step *)

(** [difficulty / 10], without rounding. *)
Definition encounterChance (t : Terrain) : Q :=
  (inject_Z (difficulty t) / 10)%Q.

(** The filter of [checkForEncounters] over [Object.values(MONSTERS)]. *)
Definition validMonsters (MONSTERS : list Monster) (biome : option string)
    : list Monster :=
  filter (fun monster =>
            (List.length (validBiomes monster) =? 0)%nat
            || includes (validBiomes monster) biome)
         MONSTERS.

Definition highestRarity (candidates : list Monster) : Z :=
  Math_max (map rarity candidates).

(** [highestRarity - monster.rarity + 1] *)
Definition weight (highest : Z) (monster : Monster) : Z :=
  highest - rarity monster + 1.

(** The [reduce] that sums the weights, from [0]. *)
Definition totalWeight_at (highest : Z) (candidates : list Monster) : Z :=
  fold_left (fun sum monster => sum + weight highest monster) candidates 0.

Definition totalWeight (candidates : list Monster) : Z :=
  totalWeight_at (highestRarity candidates) candidates.

(** The [find] whose callback adds the weight of the candidate to
    [currentWeight] and answers [roll < currentWeight]. *)
Fixpoint find_by_roll (highest : Z) (roll : Q) (currentWeight : Z)
    (candidates : list Monster) : option Monster :=
  match candidates with
  | [] => None
  | monster :: others =>
      let currentWeight := currentWeight + weight highest monster in
      if Qltb roll (inject_Z currentWeight) then Some monster
      else find_by_roll highest roll currentWeight others
  end.

(** [validMonsters.find(...) || validMonsters[0]]; [None] is [undefined]. *)
Definition chosenMonster (candidates : list Monster) (roll : Q)
    : option Monster :=
  match find_by_roll (highestRarity candidates) roll 0 candidates with
  | Some monster => Some monster
  | None => nth_error candidates 0
  end.

(** The level rolled from a draw of [Math.random], without rounding. *)
Definition rollLevel (chosen : Monster) (r : Q) : Z :=
  Math_round (r * inject_Z (maxLevel chosen - minLevel chosen)
              + inject_Z (minLevel chosen))%Q.

(** The object [monster], after [maxHealth] was assigned, for a rolled
    [level]. *)
Definition instantiate_level (chosen : Monster) (level : Z)
    : MonsterInstance :=
  {| mi_abilities := abilities chosen;
     mi_aggression := aggression chosen;
     mi_behavior := behavior chosen;
     mi_description := description chosen;
     mi_intelligence := intelligence chosen;
     mi_level := level;
     mi_lore := lore chosen;
     mi_maxHealth := level * baseHealth chosen;
     mi_name := name chosen;
     mi_size := size chosen |}.

(** The object [monster] for the level rolled without rounding. *)
Definition instantiate (chosen : Monster) (r : Q) : MonsterInstance :=
  instantiate_level chosen (rollLevel chosen r).

(** ** The arithmetic of the draws *)

(** The operations on doubles that [checkForEncounters] does: a quotient of
    two integers, the product of a double and an integer, the sum of a
    double and an integer.  A double is a rational, so each result is one. *)
Record Arithmetic : Type := {
  div : Z -> Z -> Q;
  mul : Q -> Z -> Q;
  add : Q -> Z -> Q
}.

(** The operations without rounding. *)
Definition exact : Arithmetic :=
  {| div := fun a b => (inject_Z a / inject_Z b)%Q;
     mul := fun x n => (x * inject_Z n)%Q;
     add := fun x n => (x + inject_Z n)%Q |}.

(** An integer below [2^53] in absolute value, as a double. *)
Definition double_of_Z (z : Z) : PrimFloat.float :=
  match z with
  | Z0 => PrimFloat.zero
  | Zpos _ => PrimFloat.of_uint63 (Uint63.of_Z z)
  | Zneg n => PrimFloat.opp (PrimFloat.of_uint63 (Uint63.of_Z (Zpos n)))
  end.

(** The double nearest to a rational whose numerator is below [2^53] in
    absolute value and whose denominator is a power of two below [2^63] or
    is below [2^53]; a rational that is a double is that double. *)
Definition double_of_Q (q : Q) : PrimFloat.float :=
  PrimFloat.div (double_of_Z (Qnum q)) (double_of_Z (Zpos (Qden q))).

(** The rational that a finite double is. *)
Definition Q_of_double (f : PrimFloat.float) : Q :=
  match FloatOps.Prim2SF f with
  | SpecFloat.S754_finite negative m e =>
      let magnitude :=
        match e with
        | Zneg n => (Zpos m # (2 ^ n)%positive)%Q
        | _ => inject_Z (Zpos m * 2 ^ e)
        end in
      if negative then (- magnitude)%Q else magnitude
  | _ => 0%Q
  end.

(** The operations of JavaScript, on operands in the range of
    [double_of_Z] and [double_of_Q]. *)
Definition doubles : Arithmetic :=
  {| div := fun a b =>
       Q_of_double (PrimFloat.div (double_of_Z a) (double_of_Z b));
     mul := fun x n =>
       Q_of_double (PrimFloat.mul (double_of_Q x) (double_of_Z n));
     add := fun x n =>
       Q_of_double (PrimFloat.add (double_of_Q x) (double_of_Z n)) |}.

(** [currentTerrain.difficulty / 10] *)
Definition chance (arith : Arithmetic) (t : Terrain) : Q :=
  div arith (difficulty t) 10.

(** [Math.round(Math.random() * (maxLevel - minLevel) + minLevel)] *)
Definition level_of (arith : Arithmetic) (chosen : Monster) (r : Q) : Z :=
  Math_round (add arith (mul arith r (maxLevel chosen - minLevel chosen))
                        (minLevel chosen)).

(** ** Values of the payload *)

Definition Position_value (p : Position) : Value :=
  VObj [("x", VInt (pos_x p)); ("y", VInt (pos_y p))].

Definition PlayerState_value (p : PlayerState) : Value :=
  VObj [("abilities", VSet (map VStr (p_abilities p)));
        ("conditions", VSet (map VStr (p_conditions p)));
        ("energy", VInt (energy p));
        ("health", VInt (health p));
        ("maxEnergy", VInt (maxEnergy p));
        ("maxHealth", VInt (maxHealth p));
        ("position", Position_value (position p));
        ("requirements", VSet (map VStr (requirements p)));
        ("warned", VBool (warned p));
        ("xp", VInt (xp p))].

Definition MonsterInstance_value (m : MonsterInstance) : Value :=
  VObj [("abilities", mi_abilities m);
        ("aggression", mi_aggression m);
        ("behavior", mi_behavior m);
        ("description", mi_description m);
        ("intelligence", mi_intelligence m);
        ("level", VInt (mi_level m));
        ("lore", mi_lore m);
        ("maxHealth", VInt (mi_maxHealth m));
        ("name", VStr (mi_name m));
        ("size", mi_size m)].

(** [`${x},${y}: ${biome} ${type}`] *)
Definition describe_current (p : Position) (biome : option string)
    (t : Terrain) : string :=
  Number_toString (pos_x p) ++ "," ++ Number_toString (pos_y p) ++ ": "
  ++ nullable_toString biome ++ " " ++ terrain_type t.

(** [`${t.x},${t.y}: ${t.terrain.biomeName} ${t.terrain.terrain.type}`] *)
Definition describe_adjacent (t : AdjacentTerrain) : string :=
  Number_toString (adj_x t) ++ "," ++ Number_toString (adj_y t) ++ ": "
  ++ biomeName (adj_terrain t) ++ " " ++ terrain_type (terrain (adj_terrain t)).

(** The object that [checkForEncounters] serializes into the prompt. *)
Definition prompt_value (currentTerrain : string) (monster : MonsterInstance)
    (playerState : PlayerState) (surroundingTerrain : list string) : Value :=
  VObj [("currentTerrain", VStr currentTerrain);
        ("monster", MonsterInstance_value monster);
        ("playerState", PlayerState_value playerState);
        ("surroundingTerrain", VArr (map VStr surroundingTerrain))].

(** ** The class [Game] *)

Section Game.

(** What the game is wired to and [src/] does not hold: the catalog
    [Object.values(MONSTERS)] in its iteration order, the two queries of
    the service [world], and the builtin [JSON.stringify]. *)
Variable MONSTERS : list Monster.
Variable getTerrain : Z -> Z -> TerrainInfo.
Variable getAdjacentTerrain : Z -> Z -> Z -> list AdjacentTerrain.
Variable JSON_stringify : Value -> string.

(** The arithmetic of the numbers of the platform. *)
Variable arith : Arithmetic.

Definition getState : Prog GameState := GetState (fun s => Ret s).
Definition Math_random : Prog Q := MathRandom (fun r => Ret r).
Definition fetch (req : Request) : Prog Response :=
  AwaitFetch req (fun resp => Ret resp).
Definition resp_json (resp : Response) : Prog Value :=
  AwaitJson resp (fun data => Ret data).

(** [Game.draw]: it only paints, so it is one recorded call. *)
Definition draw : Prog unit := Draw (Ret tt).

(** Modelled from the spec: [StateManager.dispatch] merges the update and
    then calls every subscriber; [setupEventListeners] subscribes one
    callback, which redraws. *)
Definition state_dispatch (u : Update) : Prog unit :=
  Dispatch u (Ret tt) ;; draw.

(** [Game.pause] *)
Definition pause : Prog unit := state_dispatch (ui_isPaused true).

(** [Game.resume] *)
Definition resume : Prog unit :=
  state_dispatch (ui_isPaused false) ;; draw.

(** The handlers of [WINDOW_OPEN] and [WINDOW_CLOSE] that
    [setupEventListeners] registers. *)
Definition on_WINDOW_OPEN (windowData : WindowData) : Prog unit :=
  pause ;; NewWindow windowData (Ret tt).

Definition on_WINDOW_CLOSE : Prog unit := resume ;; draw.

(** Modelled from the spec: [EventSystem.emit] calls the handlers of the
    event, in order, before it returns.
    [events.emit(GameEvents.WINDOW_OPEN, windowData)] *)
Definition emit_WINDOW_OPEN (windowData : WindowData) : Prog unit :=
  Emit (WINDOW_OPEN windowData) (Ret tt) ;; on_WINDOW_OPEN windowData.

(** The request of [generateAi]: the second argument of [fetch], and its
    first as [url]. *)
Definition api_request (prompt : string) : Request :=
  {| url := "/api/gen";
     body := JSON_stringify (VObj [("prompt", VStr prompt)]);
     headers := [("Content-Type", "application/json")];
     method := "POST" |}.

(** [Game.generateAi] *)
Definition generateAi (prompt : string) : Prog Value :=
  pause ;;
  resp <- fetch (api_request prompt) ;;
  data <- resp_json resp ;;
  resume ;;
  lift (get_property data "text").

(** The window that announces an encounter. *)
Definition encounter_window (encounterDescription : Value) : WindowData :=
  {| buttons := ["Close"];
     content := [encounterDescription];
     title := "Encounter!" |}.

(** The prompt of an encounter with [monster], from the state read at the
    start of the check. *)
Definition encounter_prompt (currentState : GameState) (t : Terrain)
    (monster : MonsterInstance) : string :=
  let p := position (player currentState) in
  JSON_stringify
    (prompt_value
       (describe_current p (currentBiome (world currentState)) t)
       monster
       (player currentState)
       (map describe_adjacent (getAdjacentTerrain (pos_x p) (pos_y p) 2))).

(** [Game.checkForEncounters] *)
Definition checkForEncounters : Prog unit :=
  currentState <- getState ;;
  match currentTerrain (world currentState) with
  | None => Ret tt
  | Some t =>
      r <- Math_random ;;
      if Qgtb r (chance arith t) then Ret tt
      else
        let candidates :=
          validMonsters MONSTERS (currentBiome (world currentState)) in
        r <- Math_random ;;
        let roll := mul arith r (totalWeight candidates) in
        match chosenMonster candidates roll with
        | None => Throw TypeError   (* [chosenMonster.abilities] *)
        | Some chosen =>
            r <- Math_random ;;
            let monster := instantiate_level chosen (level_of arith chosen r) in
            encounterDescription <-
              generateAi (encounter_prompt currentState t monster) ;;
            emit_WINDOW_OPEN (encounter_window encounterDescription)
        end
  end.

(** [Game.updatePlayerWorldInfo] *)
Definition updatePlayerWorldInfo : Prog unit :=
  s <- getState ;;
  let p := position (player s) in
  let info := getTerrain (pos_x p) (pos_y p) in
  state_dispatch (world_info (Some (biomeName info)) (Some (terrain info))).

(** The handler of [PLAYER_MOVE] that [setupEventListeners] registers; the
    async [checkForEncounters] is called and not awaited. *)
Definition on_PLAYER_MOVE : Prog unit :=
  Spawn checkForEncounters (Ret tt) ;;
  updatePlayerWorldInfo ;;
  draw.

Definition help_window : WindowData :=
  {| buttons := ["Close"];
     content := map VStr
       ["Arrow Keys: Movement"; "R: Rest"; "S: Search"; "B: Build";
        "E: Enter/Explore"; "I: Open Inventory"; "P: Show Player";
        "H: Help"; "Esc: Settings"; EmptyString;
        "The bar along the top contains all your player stats, but for more details you can open the player pane with P. Explore the world, avoid the dangers.";
        "Be careful."];
     title := "Help & Controls" |}.

(** [Game.help] *)
Definition help : Prog unit := emit_WINDOW_OPEN help_window.

(** A call of a method of the service [player]. *)
Definition player_call (c : PlayerCall) : Prog unit :=
  CallPlayer c (Ret tt).

(** [Game.handleKeyPress], on [e.key] *)
Definition handleKeyPress (key : string) : Prog unit :=
  s <- getState ;;
  if isPaused (ui s) then Ret tt
  else
    match key with
    | "ArrowLeft" => player_call (move (-1) 0)
    | "ArrowRight" => player_call (move 1 0)
    | "ArrowUp" => player_call (move 0 (-1))
    | "ArrowDown" => player_call (move 0 1)
    | "r" => player_call rest
    | "i" => player_call openInventory
    | "s" => player_call search
    | "h" => help
    | "Escape" => help
    | _ => Ret tt
    end.

(** The listener of [keydown] that [setupEventListeners] installs. *)
Definition on_keydown (key : string) : Prog unit :=
  s <- getState ;;
  if isPaused (ui s) then Ret tt else handleKeyPress key.

(** [Game.start] *)
Definition start : Prog unit :=
  state_dispatch (ui_isPaused false) ;;
  updatePlayerWorldInfo ;;
  draw.

(** Modelled from the spec: [Player.move], of which [src/] has only the
    calls; it dispatches the new position and then emits [PLAYER_MOVE], whose
    handler above runs before [emit] returns. *)
Definition Player_move (dx dy : Z) : Prog unit :=
  s <- getState ;;
  let p := position (player s) in
  state_dispatch
    (player_position {| pos_x := pos_x p + dx; pos_y := pos_y p + dy |}) ;;
  Emit PLAYER_MOVE (Ret tt) ;;
  on_PLAYER_MOVE.

(** The key presses [keys] delivered one after the other. *)
Fixpoint press_keys (keys : list string) (m : Machine) : Machine :=
  match keys with
  | [] => m
  | key :: later => press_keys later (fst (exec (on_keydown key) m))
  end.

End Game.

(** ** The class [Canvas] *)

Module Canvas.

(** What the wrapper does to its 2D context. *)
Inductive CtxCall : Type :=
| clearRect (x y w h : Q)
| set_fillStyle (style : string)
| fillRect (x y w h : Q)
| set_font (font : string)
| fillText (text : string) (x y : Q).

(** The fields of a canvas; [canvas_width] and [canvas_height] are the
    size of the element [canvas], which [ctx.canvas.width] and
    [ctx.canvas.height] read; [ctx] lists the calls made on the context,
    oldest first. *)
Record t : Type := {
  active : bool;
  canvas_width : Z;
  canvas_height : Z;
  color : string;
  fontSize : Z;
  font : string;
  width : Z;
  height : Z;
  ctx : list CtxCall
}.

Definition call (c : CtxCall) (cv : t) : t :=
  {| active := active cv;
     canvas_width := canvas_width cv; canvas_height := canvas_height cv;
     color := color cv; fontSize := fontSize cv;
     font := font cv; width := width cv; height := height cv;
     ctx := ctx cv ++ [c] |}.

(** What the element keeps of an integer assigned to its [width] or
    [height]: the integer modulo [2^32] when that is at most [2^31 - 1], the
    default of the attribute otherwise. *)
Definition element_size (default v : Z) : Z :=
  let n := v mod 4294967296 in
  if n <=? 2147483647 then n else default.

(** The constructor, once the container and the context were found. *)
Definition create (width height : Z) : t :=
  {| active := false;
     canvas_width := element_size 300 width;
     canvas_height := element_size 150 height;
     color := "black";
     fontSize := 16;
     font := Number_toString 16 ++ "px ui-monospace";
     width := width;
     height := height;
     ctx := [] |}.

(** How the constructor ends: with the canvas, or with the [Error] it
    throws. *)
Inductive Constructed : Type :=
| Built (cv : t)
| Thrown (message : string).

(** The constructor; [container] tells whether [document.querySelector]
    found the container and [context] whether [getContext('2d')] gave
    one. *)
Definition construct (container context : bool) (width height : Z)
    : Constructed :=
  if negb container then Thrown "Container not found"
  else if negb context then Thrown "Canvas context not found"
  else Built (create width height).

Definition clear (cv : t) : t :=
  call (clearRect 0 0 (inject_Z (canvas_width cv))
                  (inject_Z (canvas_height cv))) cv.

(** [bg(color?)]: [color ?? this.color] *)
Definition bg (c : option string) (cv : t) : t :=
  let style := match c with Some c => c | None => color cv end in
  call (fillRect 0 0 (inject_Z (canvas_width cv))
                 (inject_Z (canvas_height cv)))
       (call (set_fillStyle style) cv).

Definition setColor (c : string) (cv : t) : t :=
  {| active := active cv;
     canvas_width := canvas_width cv; canvas_height := canvas_height cv;
     color := c; fontSize := fontSize cv;
     font := font cv; width := width cv; height := height cv;
     ctx := ctx cv |}.

(** Conversion of [style?: string] by a template literal. *)
Definition optional_toString (style : option string) : string :=
  match style with
  | Some s => s
  | None => "undefined"
  end.

(** [setFont(size, name, style?)]: [`${size}px ${name} ${style}`] *)
Definition setFont (size : Z) (name : string) (style : option string)
    (cv : t) : t :=
  {| active := active cv;
     canvas_width := canvas_width cv; canvas_height := canvas_height cv;
     color := color cv; fontSize := fontSize cv;
     font := Number_toString size ++ "px " ++ name ++ " "
             ++ optional_toString style;
     width := width cv; height := height cv;
     ctx := ctx cv |}.

Definition rect (x y w h : Q) (cv : t) : t :=
  call (fillRect x y w h) (call (set_fillStyle (color cv)) cv).

Definition text (s : string) (x y : Q) (cv : t) : t :=
  call (fillText s x y)
       (call (set_font (font cv)) (call (set_fillStyle (color cv)) cv)).

(** The methods other than [setFont], as data, and a run of them. *)
Inductive Op : Type :=
| op_clear
| op_bg (c : option string)
| op_setColor (c : string)
| op_rect (x y w h : Q)
| op_text (s : string) (x y : Q).

Definition apply (o : Op) (cv : t) : t :=
  match o with
  | op_clear => clear cv
  | op_bg c => bg c cv
  | op_setColor c => setColor c cv
  | op_rect x y w h => rect x y w h cv
  | op_text s x y => text s x y cv
  end.

Definition run (ops : list Op) (cv : t) : t :=
  fold_left (fun cv o => apply o cv) ops cv.

End Canvas.

(** ** A small world, for the examples *)

(** An instance of [JSON.stringify] for values whose strings hold no control
    character: a property whose value is [undefined] is left out, an
    [undefined] element of an array is [null], a [Set] has no enumerable
    property. *)
(** A string between quotes, with its quotes and backslashes escaped. *)
Fixpoint escaped (s : string) : string :=
  match s with
  | EmptyString => EmptyString
  | String c s' =>
      if (Ascii.eqb c (ascii_of_nat 34) || Ascii.eqb c (ascii_of_nat 92))%bool
      then String (ascii_of_nat 92) (String c (escaped s'))
      else String c (escaped s')
  end.

Definition quoted (s : string) : string :=
  let q := String (ascii_of_nat 34) EmptyString in q ++ escaped s ++ q.

Fixpoint JSON_stringify_plain (v : Value) : string :=
  match v with
  | VUndefined | VNull => "null"
  | VBool true => "true"
  | VBool false => "false"
  | VInt z => Number_toString z
  | VStr s => quoted s
  | VArr elements =>
      "[" ++ String.concat "," (map JSON_stringify_plain elements) ++ "]"
  | VObj fields =>
      "{" ++ String.concat ","
               (flat_map (fun kv =>
                            match snd kv with
                            | VUndefined => []
                            | _ => [quoted (fst kv) ++ ":"
                                    ++ JSON_stringify_plain (snd kv)]
                            end) fields)
          ++ "}"
  | VSet _ => "{}"
  end.

Definition plains : Terrain :=
  {| terrain_type := "plains"; label := "."; color := "#7ec850";
     difficulty := 0 |}.

Definition swamp : Terrain :=
  {| terrain_type := "swamp"; label := "~"; color := "#4b5d3a";
     difficulty := 10 |}.

Definition crag : Terrain :=
  {| terrain_type := "crag"; label := "^"; color := "#8a8a8a";
     difficulty := 10 |}.

(** Grassland up to the column [0], marsh on the column [1], highlands east
    of it. *)
Definition demo_getTerrain (x y : Z) : TerrainInfo :=
  if x <=? 0 then {| terrain := plains; biomeName := "Grassland" |}
  else if x =? 1 then {| terrain := swamp; biomeName := "Marsh" |}
  else {| terrain := crag; biomeName := "Highlands" |}.

Definition span (lo : Z) (n : nat) : list Z :=
  map (fun i => lo + Z.of_nat i) (seq 0 n).

(** Modelled from the spec: [World.getAdjacentTerrain], the cells of the
    square of the given radius around [(x, y)] without its centre, row by
    row. *)
Definition demo_getAdjacentTerrain (x y radius : Z) : list AdjacentTerrain :=
  let side := Z.to_nat (2 * radius + 1) in
  flat_map (fun cy =>
              flat_map (fun cx =>
                          if (cx =? x) && (cy =? y) then []
                          else [{| adj_x := cx; adj_y := cy;
                                   adj_terrain := demo_getTerrain cx cy |}])
                       (span (x - radius) side))
           (span (y - radius) side).

Definition wolf : Monster :=
  {| abilities := VArr [VStr "bite"]; aggression := VInt 6; baseHealth := 10;
     behavior := VStr "pack hunter"; description := VStr "A grey wolf.";
     intelligence := VInt 3; lore := VStr "Wolves roam every land.";
     maxLevel := 3; minLevel := 1; name := "Wolf"; rarity := 1;
     size := VStr "medium"; validBiomes := [] |}.

Definition bogling : Monster :=
  {| abilities := VArr [VStr "ambush"]; aggression := VInt 4; baseHealth := 7;
     behavior := VStr "lurker"; description := VStr "A thing of the mire.";
     intelligence := VInt 2; lore := VStr "Boglings never leave the marsh.";
     maxLevel := 6; minLevel := 2; name := "Bogling"; rarity := 5;
     size := VStr "small"; validBiomes := ["Marsh"] |}.

(** A catalog with a monster of every biome, and one without. *)
Definition demo_MONSTERS : list Monster := [wolf; bogling].
Definition marsh_MONSTERS : list Monster := [bogling].

(** A machine that starts on the state [s] with the draws [rng]. *)
Definition boot (s : GameState) (rng : nat -> Q) : Machine :=
  {| store := s; rng := rng; drawn := 0; log := []; tasks := [] |}.

(** The state when the player stands on [p] and the store holds the world
    info of [seen]. *)
Definition standing (p : Position) (seen : TerrainInfo) (paused : bool)
    : GameState :=
  merge (merge (merge createInitialState (player_position p))
               (world_info (Some (biomeName seen)) (Some (terrain seen))))
        (ui_isPaused paused).

Definition origin : Position := {| pos_x := 0; pos_y := 0 |}.
Definition east : Position := {| pos_x := 1; pos_y := 0 |}.
Definition far_east : Position := {| pos_x := 2; pos_y := 0 |}.

(** The game of the examples. *)
Definition demo_checkForEncounters : Prog unit :=
  checkForEncounters demo_MONSTERS demo_getAdjacentTerrain JSON_stringify_plain
                     exact.

Definition demo_on_PLAYER_MOVE : Prog unit :=
  on_PLAYER_MOVE demo_MONSTERS demo_getTerrain demo_getAdjacentTerrain
                 JSON_stringify_plain exact.

(** A response whose body is [{"text": ...}]. *)
Definition ok_response (text : string) : Response :=
  {| status := 200; json := Fulfilled (VObj [("text", VStr text)]) |}.

(** A response whose body is not JSON. *)
Definition garbled_response : Response :=
  {| status := 502; json := Rejected SyntaxError |}.

(** ** The sampler in the words of its description *)

Definition sum_Z (xs : list Z) : Z := fold_right Z.add 0 xs.

(** The weight of the candidates up to and including the one of index [i]. *)
Definition cumulativeWeight (highest : Z) (candidates : list Monster)
    (i : nat) : Z :=
  sum_Z (map (weight highest) (firstn (S i) candidates)).

(** [i] is the index of the first candidate whose cumulative weight strictly
    exceeds [roll]. *)
Definition first_exceeding (highest : Z) (candidates : list Monster)
    (roll : Q) (i : nat) : Prop :=
  (roll < inject_Z (cumulativeWeight highest candidates i))%Q
  /\ forall j, (j < i)%nat ->
       (inject_Z (cumulativeWeight highest candidates j) <= roll)%Q.

(** No candidate has a cumulative weight that exceeds [roll]. *)
Definition none_exceeding (highest : Z) (candidates : list Monster)
    (roll : Q) : Prop :=
  forall j, (j < List.length candidates)%nat ->
    (inject_Z (cumulativeWeight highest candidates j) <= roll)%Q.

(** The error an external call fails with: [fetch] rejects, or the response
    arrives and its body is not JSON. *)
Definition failure (fetched : Settled Response) : option JsError :=
  match fetched with
  | Rejected e => Some e
  | Fulfilled resp =>
      match json resp with
      | Rejected e => Some e
      | Fulfilled _ => None
      end
  end.

(** An async call that gets over the way [fetched] settles: it ends with a
    value and leaves the game running. *)
Definition recovers {A : Type} (p : Prog A) (fetched : Settled Response)
    (m : Machine) : Prop :=
  exists m' a, exec_async p fetched m = (m', Done a)
               /\ isPaused (ui (store m')) = false.

(** ** Machines of the examples *)

(** The player stands on the marsh and the store holds its terrain; every
    draw is [1/2]. *)
Definition in_the_marsh : Machine :=
  boot (standing east (demo_getTerrain 1 0) false) (fun _ => 1 # 2)%Q.

(** The player has just stepped from [(0, 0)] east onto the marsh: the
    position is the new one, the world info is still the one computed at
    [(0, 0)]; every draw is [1/2]. *)
Definition stepped_east : Machine :=
  boot (standing east (demo_getTerrain 0 0) false) (fun _ => 1 # 2)%Q.

(** The player stands on the plains, of difficulty [0], and every draw is
    [0]. *)
Definition on_the_plains : Machine :=
  boot (standing origin (demo_getTerrain 0 0) false) (fun _ => 0)%Q.

(** The player stands in the highlands, of difficulty [10]; every draw is
    [1/2]. *)
Definition in_the_highlands : Machine :=
  boot (standing far_east (demo_getTerrain 2 0) false) (fun _ => 1 # 2)%Q.

(** The game started at the origin, before any key. *)
Definition started : Machine :=
  fst (exec (start demo_getTerrain)
            (boot createInitialState (fun _ => 1 # 2)%Q)).

(** Scree of difficulty [8], in a biome where no monster of the examples
    lives. *)
Definition scree : Terrain :=
  {| terrain_type := "scree"; label := ":"; color := "#b0a090";
     difficulty := 8 |}.

(** The doubles nearest to [0.8] and to [0.7]. *)
Definition double_0_8 : Q := (3602879701896397 # 4503599627370496)%Q.
Definition double_0_7 : Q := (3152519739159347 # 4503599627370496)%Q.

(** The player stands on the scree and every draw is the double nearest to
    [0.8]. *)
Definition on_the_scree : Machine :=
  boot (standing origin {| terrain := scree; biomeName := "Scree" |} false)
       (fun _ => double_0_8).

(** A template of the levels [3] to [8]. *)
Definition ogre : Monster :=
  {| abilities := VArr [VStr "club"]; aggression := VInt 8; baseHealth := 12;
     behavior := VStr "brute"; description := VStr "A hill ogre.";
     intelligence := VInt 1; lore := VStr "Ogres keep to the hills.";
     maxLevel := 8; minLevel := 3; name := "Ogre"; rarity := 3;
     size := VStr "large"; validBiomes := ["Highlands"] |}.

(** The game whose catalog holds the bogling only. *)
Definition marsh_checkForEncounters : Prog unit :=
  checkForEncounters marsh_MONSTERS demo_getAdjacentTerrain
                     JSON_stringify_plain exact.

(** ** Drawing *)

(** The part of [Game] that paints: the size of the grid, computed by the
    constructor, and [screenToWorld], [draw] and [drawUI].  A canvas is
    threaded through the calls, as the one service [canvas] is in the
    source. *)
Module Render.

(** The fields [cellsAcross] and [cellsDown] of a game. *)
Record Grid : Type := {
  cellsAcross : Z;
  cellsDown : Z
}.

(** [Math.floor(extent / canvas.fontSize) + 1], on integers. *)
Definition cells (extent fontSize : Z) : Z := extent / fontSize + 1.

(** What the constructor computes from [config.width], [config.height] and
    the canvas it made. *)
Definition grid_of (width height : Z) (canvas : Canvas.t) : Grid :=
  {| cellsAcross := cells width (Canvas.fontSize canvas);
     cellsDown := cells height (Canvas.fontSize canvas) |}.

(** [Math.floor(this.cellsAcross / 2)] and [Math.floor(this.cellsDown / 2)] *)
Definition screenCenterX (g : Grid) : Z := cellsAcross g / 2.
Definition screenCenterY (g : Grid) : Z := cellsDown g / 2.

(** [Game.screenToWorld], with the position of the player read from the
    state. *)
Definition screenToWorld (g : Grid) (playerPos : Position)
    (screenX screenY : Z) : Position :=
  {| pos_x := screenX - screenCenterX g + pos_x playerPos;
     pos_y := screenY - screenCenterY g + pos_y playerPos |}.

Section Draw.

Variable getTerrain : Z -> Z -> TerrainInfo.

(** [player.draw(canvas, x, y)], of which [src/] has only the call. *)
Variable Player_draw : Q -> Q -> Canvas.t -> Canvas.t.

(** The body of the inner loop of [draw]. *)
Definition draw_cell (g : Grid) (playerPos : Position) (screenX screenY : Z)
    (cv : Canvas.t) : Canvas.t :=
  let w := screenToWorld g playerPos screenX screenY in
  let t := terrain (getTerrain (pos_x w) (pos_y w)) in
  if (screenX =? screenCenterX g) && (screenY =? screenCenterY g) then cv
  else
    Canvas.text (label t)
                (inject_Z (screenX * Canvas.fontSize cv))
                (inject_Z (screenY * Canvas.fontSize cv))
                (Canvas.setColor (color t) cv).

(** [for (let i = 0; i < n; i++) body(i)] *)
Definition for_below (n : Z) (body : Z -> Canvas.t -> Canvas.t)
    (cv : Canvas.t) : Canvas.t :=
  fold_left (fun cv i => body i cv) (span 0 (Z.to_nat n)) cv.

(** [draw] up to the end of its loops: the background, the font of the
    cells and the terrain of every cell but the one of the player. *)
Definition draw_world (g : Grid) (playerPos : Position) (cv : Canvas.t)
    : Canvas.t :=
  let cv := Canvas.clear cv in
  let cv := Canvas.bg (Some "black") cv in
  let cv := Canvas.setFont (Canvas.fontSize cv) "ui-monospace" None cv in
  for_below (cellsAcross g)
    (fun screenX =>
       for_below (cellsDown g)
         (fun screenY => draw_cell g playerPos screenX screenY))
    cv.

Definition newline : string := String (ascii_of_nat 10) EmptyString.

(** The template literal of [drawUI]; [level], [xp] and [conditions] are the
    texts of [player.getLevel()], [state.player.xp.toLocaleString()] and
    [player.showConditions()]. *)
Definition uiText (s : GameState) (level xp conditions : string) : string :=
  "Biome: " ++ nullable_toString (currentBiome (world s)) ++ newline
  ++ "    Terrain: "
  ++ Canvas.optional_toString
       (option_map terrain_type (currentTerrain (world s))) ++ newline
  ++ "    Energy: " ++ Number_toString (energy (player s)) ++ "/"
  ++ Number_toString (maxEnergy (player s)) ++ newline
  ++ "    Health: " ++ Number_toString (health (player s)) ++ "/"
  ++ Number_toString (maxHealth (player s)) ++ newline
  ++ "    Level: " ++ level ++ " (" ++ xp ++ "xp)" ++ newline
  ++ "    Conditions: " ++ conditions.

(** [Game.drawUI], from the text on. *)
Definition drawUI (text : string) (cv : Canvas.t) : Canvas.t :=
  let cv := Canvas.setColor "#cfbca9" cv in
  let cv := Canvas.rect 0 0 (inject_Z (Canvas.width cv))
                        (inject_Z (Canvas.fontSize cv * 2)) cv in
  let cv := Canvas.setColor "#5d2d00" cv in
  let cv := Canvas.rect 0 (inject_Z (Canvas.fontSize cv * 2))
                        (inject_Z (Canvas.width cv)) 4 cv in
  let cv := Canvas.setColor "black" cv in
  let cv := Canvas.setFont 20 "ui-monospace" None cv in
  Canvas.text text (inject_Z (Canvas.fontSize cv))
              (inject_Z (Canvas.fontSize cv) * (13 # 10))%Q cv.

(** [Game.draw] *)
Definition draw (g : Grid) (s : GameState) (level xp conditions : string)
    (cv : Canvas.t) : Canvas.t :=
  let cv := draw_world g (position (player s)) cv in
  let cv := Player_draw (inject_Z (screenCenterX g * Canvas.fontSize cv))
                        (inject_Z (screenCenterY g * Canvas.fontSize cv))
                        cv in
  drawUI (uiText s level xp conditions) cv.

End Draw.

(** The cells of the grid with their calls, in the words of a reader: column
    by column, each column from the top. *)
Definition cells_of (g : Grid) : list (Z * Z) :=
  flat_map (fun screenX =>
              map (fun screenY => (screenX, screenY))
                  (span 0 (Z.to_nat (cellsDown g))))
           (span 0 (Z.to_nat (cellsAcross g))).

Definition is_center (g : Grid) (cell : Z * Z) : bool :=
  (fst cell =? screenCenterX g) && (snd cell =? screenCenterY g).

(** The font string [draw] sets for the cells. *)
Definition cell_font (cv : Canvas.t) : string :=
  Number_toString (Canvas.fontSize cv) ++ "px ui-monospace undefined".

(** What the context is asked for one cell. *)
Definition cell_calls (getTerrain : Z -> Z -> TerrainInfo) (g : Grid)
    (playerPos : Position) (cv : Canvas.t) (cell : Z * Z)
    : list Canvas.CtxCall :=
  let w := screenToWorld g playerPos (fst cell) (snd cell) in
  let t := terrain (getTerrain (pos_x w) (pos_y w)) in
  if is_center g cell then []
  else [Canvas.set_fillStyle (color t);
        Canvas.set_font (cell_font cv);
        Canvas.fillText (label t)
                        (inject_Z (fst cell * Canvas.fontSize cv))
                        (inject_Z (snd cell * Canvas.fontSize cv))].

Definition is_fillText (c : Canvas.CtxCall) : bool :=
  match c with
  | Canvas.fillText _ _ _ => true
  | _ => false
  end.

End Render.

(** ** Counting and the keys *)

(** How many elements of [l] satisfy [p]. *)
Definition hits (A : Type) (p : A -> bool) (l : list A) : nat :=
  List.length (filter p l).

(** The labels of the cases of the [switch] of [handleKeyPress]. *)
Definition handled_keys : list string :=
  ["ArrowLeft"; "ArrowRight"; "ArrowUp"; "ArrowDown"; "r"; "i"; "s"; "h";
   "Escape"].

(** A response whose body is the JSON [null]. *)
Definition null_response : Response :=
  {| status := 200; json := Fulfilled VNull |}.

(** * Properties *)

(** ** Comparisons and rounding *)

Lemma Qgtb_true (x y : Q) : Qgtb x y = true <-> (y < x)%Q.
Proof.
  unfold Qgtb. rewrite negb_true_iff, <- not_true_iff_false, Qle_bool_iff.
  split; [apply Qnot_le_lt | apply Qlt_not_le].
Qed.

Lemma Qgtb_false (x y : Q) : Qgtb x y = false <-> (x <= y)%Q.
Proof.
  unfold Qgtb. rewrite negb_false_iff. apply Qle_bool_iff.
Qed.

Lemma Qltb_true (x y : Q) : Qltb x y = true <-> (x < y)%Q.
Proof. apply Qgtb_true. Qed.

Lemma Qltb_false (x y : Q) : Qltb x y = false <-> (y <= x)%Q.
Proof. apply Qgtb_false. Qed.

Lemma Math_round_half_up (z : Z) : Math_round (inject_Z z + (1 # 2))%Q = z + 1.
Proof.
  unfold Math_round.
  rewrite (Qfloor_comp _ (inject_Z (z + 1))).
  - apply Qfloor_Z.
  - rewrite inject_Z_plus. ring.
Qed.



(** ** The weights *)

Lemma fold_max_spec (xs : list Z) : forall a,
  a <= fold_left Z.max xs a
  /\ (forall x, In x xs -> x <= fold_left Z.max xs a)
  /\ (fold_left Z.max xs a = a \/ In (fold_left Z.max xs a) xs).
Proof.
  induction xs as [| y ys IH]; intros a; simpl.
  - repeat split; [lia | contradiction | now left].
  - destruct (IH (Z.max a y)) as (Hge & Hall & Hin).
    repeat split.
    + lia.
    + intros x [-> | Hx]; [lia | auto].
    + destruct Hin as [Heq | Hin]; [| now right; right].
      rewrite Heq. destruct (Z.max_spec a y) as [[_ ->] | [_ ->]]; auto.
Qed.

Lemma Math_max_upper (xs : list Z) (x : Z) : In x xs -> x <= Math_max xs.
Proof.
  destruct xs as [| y ys]; [contradiction |].
  simpl. destruct (fold_max_spec ys y) as (Hge & Hall & _).
  intros [<- | Hx]; auto.
Qed.

Lemma Math_max_attained (xs : list Z) : xs <> [] -> In (Math_max xs) xs.
Proof.
  destruct xs as [| y ys]; [congruence |]. intros _.
  simpl. destruct (fold_max_spec ys y) as (_ & _ & [-> | Hin]); auto.
Qed.

Lemma weight_positive (candidates : list Monster) (monster : Monster) :
  In monster candidates -> 1 <= weight (highestRarity candidates) monster.
Proof.
  intros Hin. unfold weight, highestRarity.
  assert (rarity monster <= Math_max (map rarity candidates)).
  { apply Math_max_upper, in_map, Hin. }
  lia.
Qed.

Lemma totalWeight_at_from (highest : Z) (candidates : list Monster) :
  forall acc,
    fold_left (fun sum monster => sum + weight highest monster) candidates acc
    = acc + sum_Z (map (weight highest) candidates).
Proof.
  induction candidates as [| c cs IH]; intros acc; simpl.
  - lia.
  - rewrite IH. lia.
Qed.

Lemma totalWeight_at_sum (highest : Z) (candidates : list Monster) :
  totalWeight_at highest candidates = sum_Z (map (weight highest) candidates).
Proof.
  unfold totalWeight_at. rewrite totalWeight_at_from. lia.
Qed.

(** With no candidate the callbacks of [reduce] and [find] never run: the
    total is [0] and nothing is found, whatever the maximum. *)
Lemma no_candidate_no_weight (highest : Z) (roll : Q) :
  totalWeight_at highest [] = 0 /\ find_by_roll highest roll 0 [] = None.
Proof. split; reflexivity. Qed.

Lemma cumulativeWeight_cons (highest : Z) (c : Monster)
    (cs : list Monster) (i : nat) :
  cumulativeWeight highest (c :: cs) (S i)
  = weight highest c + cumulativeWeight highest cs i.
Proof. reflexivity. Qed.

Lemma cumulativeWeight_last (highest : Z) (candidates : list Monster) :
  candidates <> [] ->
  cumulativeWeight highest candidates (Nat.pred (List.length candidates))
  = sum_Z (map (weight highest) candidates).
Proof.
  intros Hne. unfold cumulativeWeight.
  destruct candidates as [| c cs]; [congruence |].
  cbn [List.length Nat.pred].
  change (S (List.length cs)) with (List.length (c :: cs)).
  now rewrite firstn_all.
Qed.

(** What [find] returns, from any value of [currentWeight]. *)
Lemma find_by_roll_spec (highest : Z) (roll : Q) (candidates : list Monster) :
  forall acc,
    match find_by_roll highest roll acc candidates with
    | Some chosen =>
        exists i, nth_error candidates i = Some chosen
          /\ (roll < inject_Z (acc + cumulativeWeight highest candidates i))%Q
          /\ forall j, (j < i)%nat ->
               (inject_Z (acc + cumulativeWeight highest candidates j) <= roll)%Q
    | None =>
        forall j, (j < List.length candidates)%nat ->
          (inject_Z (acc + cumulativeWeight highest candidates j) <= roll)%Q
    end.
Proof.
  induction candidates as [| c cs IH]; intros acc.
  - simpl. intros j Hj. inversion Hj.
  - cbn [find_by_roll].
    destruct (Qltb roll (inject_Z (acc + weight highest c))) eqn:Hlt.
    + exists 0%nat. repeat split.
      * apply Qltb_true in Hlt. unfold cumulativeWeight. simpl.
        now rewrite Z.add_0_r.
      * intros j Hj. inversion Hj.
    + apply Qltb_false in Hlt.
      specialize (IH (acc + weight highest c)).
      destruct (find_by_roll highest roll (acc + weight highest c) cs).
      * destruct IH as (i & Hnth & Hroll & Hbefore).
        exists (S i). repeat split.
        -- exact Hnth.
        -- rewrite cumulativeWeight_cons, Z.add_assoc. exact Hroll.
        -- intros [| j] Hj.
           ++ unfold cumulativeWeight. simpl. now rewrite Z.add_0_r.
           ++ rewrite cumulativeWeight_cons, Z.add_assoc.
              apply Hbefore. lia.
      * intros [| j] Hj.
        -- unfold cumulativeWeight. simpl. now rewrite Z.add_0_r.
        -- rewrite cumulativeWeight_cons, Z.add_assoc.
           apply IH. simpl in Hj. lia.
Qed.

Lemma chosenMonster_spec (candidates : list Monster) (roll : Q) :
  let highest := highestRarity candidates in
  (exists i chosen,
      chosenMonster candidates roll = Some chosen
      /\ nth_error candidates i = Some chosen
      /\ first_exceeding highest candidates roll i)
  \/ (none_exceeding highest candidates roll
      /\ chosenMonster candidates roll = nth_error candidates 0).
Proof.
  intros highest. unfold chosenMonster. fold highest.
  pose proof (find_by_roll_spec highest roll candidates 0) as Hfind.
  destruct (find_by_roll highest roll 0 candidates) as [chosen |].
  - left. destruct Hfind as (i & Hnth & Hroll & Hbefore).
    exists i, chosen. repeat split; auto.
  - right. split; [| reflexivity]. exact Hfind.
Qed.

(** C5: on a candidate list that is not empty, the weight of a candidate is
    [highestRarity - rarity + 1] with [highestRarity] the greatest rarity of
    the list, so it is at least 1; [totalWeight] is the sum of the weights;
    the chosen monster is the first candidate, in the order of the list,
    whose cumulative weight strictly exceeds the roll, and the first
    candidate of the list when there is none; for a roll below
    [totalWeight] there is one. *)
Theorem weighted_choice_of_monster (candidates : list Monster) (roll : Q) :
  candidates <> [] ->
  let highest := highestRarity candidates in
  (exists rarest, In rarest candidates /\ rarity rarest = highest)
  /\ (forall monster, In monster candidates ->
        rarity monster <= highest
        /\ weight highest monster = highest - rarity monster + 1
        /\ 1 <= weight highest monster)
  /\ totalWeight candidates = sum_Z (map (weight highest) candidates)
  /\ ((exists i chosen,
          chosenMonster candidates roll = Some chosen
          /\ nth_error candidates i = Some chosen
          /\ first_exceeding highest candidates roll i)
      \/ (none_exceeding highest candidates roll
          /\ exists first,
               chosenMonster candidates roll = Some first
               /\ nth_error candidates 0 = Some first))
  /\ ((roll < inject_Z (totalWeight candidates))%Q ->
      exists i chosen,
        chosenMonster candidates roll = Some chosen
        /\ nth_error candidates i = Some chosen
        /\ first_exceeding highest candidates roll i).
Proof.
  intros Hne highest.
  assert (Htotal : totalWeight candidates
                   = sum_Z (map (weight highest) candidates))
    by apply totalWeight_at_sum.
  split; [| split; [| split; [exact Htotal | split]]].
  - pose proof (@Math_max_attained (map rarity candidates)) as Hin.
    destruct candidates as [| c cs]; [congruence |].
    specialize (Hin ltac:(discriminate)).
    apply in_map_iff in Hin. destruct Hin as (rarest & Heq & Hin).
    exists rarest. split; [exact Hin | exact Heq].
  - intros monster Hin. pose proof (weight_positive _ _ Hin) as Hw.
    fold highest in Hw. unfold weight in *. repeat split; lia.
  - destruct (chosenMonster_spec candidates roll) as [Hfound | [Hnone Heq]].
    + left. exact Hfound.
    + right. split; [exact Hnone |].
      destruct candidates as [| c cs]; [congruence |].
      exists c. split; [exact Heq | reflexivity].
  - intros Hroll.
    destruct (chosenMonster_spec candidates roll) as [Hfound | [Hnone _]].
    + exact Hfound.
    + exfalso. fold highest in Hnone.
      specialize (Hnone (Nat.pred (List.length candidates))).
      rewrite cumulativeWeight_last, <- Htotal in Hnone by exact Hne.
      apply (Qlt_not_le _ _ Hroll), Hnone.
      destruct candidates; [congruence | simpl; lia].
Qed.

Lemma weighted_choice_of_monster_witness :
  [wolf; bogling] <> []
  /\ exists i chosen,
       chosenMonster [wolf; bogling] (11 # 2) = Some chosen
       /\ nth_error [wolf; bogling] i = Some chosen
       /\ first_exceeding (highestRarity [wolf; bogling]) [wolf; bogling]
                          (11 # 2) i.
Proof.
  assert (Hne : [wolf; bogling] <> []) by discriminate.
  split; [exact Hne |].
  destruct (weighted_choice_of_monster (11 # 2) Hne) as (_ & _ & _ & _ & H).
  apply H. reflexivity.
Defined.

Example rarities_1_and_5 :
  highestRarity [wolf; bogling] = 5
  /\ map (weight 5) [wolf; bogling] = [5; 1]
  /\ totalWeight [wolf; bogling] = 6
  /\ chosenMonster [wolf; bogling] (9 # 2) = Some wolf
  /\ chosenMonster [wolf; bogling] 5 = Some bogling
  /\ chosenMonster [wolf; bogling] (11 # 2) = Some bogling
  /\ chosenMonster [wolf; bogling] 6 = Some wolf.
Proof. repeat split. Qed.

(** ** The rolled level *)






Example levels_of_bogling :
  map (rollLevel bogling) [0; 1 # 8; 1 # 2; 7 # 8; 99 # 100]%Q
  = [2; 3; 4; 6; 6].
Proof. reflexivity. Qed.

(** ** The orchestrator *)

(** The guard [Math.random() > encounterChance] lets the check go on exactly
    when the draw is at most [difficulty / 10]. *)
Lemma goes_on_iff (t : Terrain) (r : Q) :
  Qgtb r (encounterChance t) = false
  <-> (r <= inject_Z (difficulty t) / 10)%Q.
Proof. apply Qgtb_false. Qed.

Lemma difficulty_ten_goes_on (t : Terrain) (r : Q) :
  difficulty t = 10 -> (r < 1)%Q -> Qgtb r (encounterChance t) = false.
Proof.
  intros Hd Hr. apply goes_on_iff. rewrite Hd.
  apply Qlt_le_weak.
  assert (Hone : (inject_Z 10 / 10 == 1)%Q) by reflexivity.
  rewrite Hone. exact Hr.
Qed.

Lemma difficulty_zero_goes_on_iff (t : Terrain) (r : Q) :
  difficulty t = 0 -> (0 <= r)%Q ->
  (Qgtb r (encounterChance t) = false <-> (r == 0)%Q).
Proof.
  intros Hd Hr. rewrite goes_on_iff, Hd.
  assert (Hzero : (inject_Z 0 / 10 == 0)%Q) by reflexivity.
  rewrite Hzero. split.
  - intros Hle. apply Qle_antisym; [exact Hle | exact Hr].
  - intros ->. apply Qle_refl.
Qed.

Section GameFacts.

Variable MONSTERS : list Monster.
Variable getTerrain : Z -> Z -> TerrainInfo.
Variable getAdjacentTerrain : Z -> Z -> Z -> list AdjacentTerrain.
Variable JSON_stringify : Value -> string.
Variable arith : Arithmetic.

Local Notation "'check'" :=
  (checkForEncounters MONSTERS getAdjacentTerrain JSON_stringify arith).
Local Notation "'generate'" := (generateAi JSON_stringify).

(** C7: when no terrain is observed, [checkForEncounters] returns and leaves
    the machine as it was: no random value is drawn, nothing is dispatched
    or emitted, no request is issued. *)
Theorem no_terrain_no_encounter (m : Machine) :
  currentTerrain (world (store m)) = None ->
  exec check m = (m, Done tt).
Proof.
  intros Hnone. unfold checkForEncounters. cbn. rewrite Hnone. reflexivity.
Qed.

Lemma on_keydown_paused (m : Machine) (key : string) :
  isPaused (ui (store m)) = true ->
  exec (on_keydown key) m = (m, Done tt).
Proof.
  intros Hp. unfold on_keydown. cbn. rewrite Hp. reflexivity.
Qed.

Lemma handleKeyPress_paused (m : Machine) (key : string) :
  isPaused (ui (store m)) = true ->
  exec (handleKeyPress key) m = (m, Done tt).
Proof.
  intros Hp. unfold handleKeyPress. cbn. rewrite Hp. reflexivity.
Qed.

Lemma press_keys_paused (keys : list string) (m : Machine) :
  isPaused (ui (store m)) = true ->
  press_keys keys m = m.
Proof.
  intros Hp. induction keys as [| key later IH]; [reflexivity |].
  cbn [press_keys]. rewrite on_keydown_paused by exact Hp. exact IH.
Qed.

(** The draw above the chance ends the check. *)
Lemma draw_above_chance (m : Machine) (t : Terrain) :
  currentTerrain (world (store m)) = Some t ->
  (chance arith t < rng m (drawn m))%Q ->
  exec check m = (record (ERandom (rng m (drawn m))) (draw_next m), Done tt).
Proof.
  intros Hterrain Habove. apply Qgtb_true in Habove.
  unfold checkForEncounters. cbn. rewrite Hterrain. cbn.
  rewrite Habove. reflexivity.
Qed.

(** With no candidate, a draw that does not end the check ends in a
    [TypeError], after the draw of the roll. *)
Lemma no_candidate_TypeError (m : Machine) (t : Terrain) :
  currentTerrain (world (store m)) = Some t ->
  (rng m (drawn m) <= chance arith t)%Q ->
  validMonsters MONSTERS (currentBiome (world (store m))) = [] ->
  exists m',
    exec check m = (m', Failed TypeError)
    /\ log m' = (log m ++ [ERandom (rng m (drawn m));
                           ERandom (rng m (S (drawn m)))])%list
    /\ store m' = store m.
Proof.
  intros Hterrain Htrigger Hnone. apply Qgtb_false in Htrigger.
  unfold checkForEncounters. cbn. rewrite Hterrain. cbn.
  rewrite Htrigger. cbn. rewrite Hnone. cbn.
  eexists. split; [reflexivity |]. cbn.
  rewrite <- app_assoc. split; reflexivity.
Qed.

(** The handler of [PLAYER_MOVE] decides on the terrain the store holds when
    it starts, and dispatches the world info of the position afterwards. *)
Lemma on_PLAYER_MOVE_order (m : Machine) (t : Terrain) :
  let p := position (player (store m)) in
  let info := getTerrain (pos_x p) (pos_y p) in
  currentTerrain (world (store m)) = Some t ->
  (chance arith t < rng m (drawn m))%Q ->
  exists m',
    exec (on_PLAYER_MOVE MONSTERS getTerrain getAdjacentTerrain
                         JSON_stringify arith) m = (m', Done tt)
    /\ log m' = (log m ++
         [ERandom (rng m (drawn m));
          EDispatch (world_info (Some (biomeName info)) (Some (terrain info)));
          EDraw; EDraw])%list.
Proof.
  intros p info Hterrain Habove.
  unfold on_PLAYER_MOVE. cbn [bind exec].
  rewrite (draw_above_chance _ Hterrain Habove). cbn.
  eexists. split; [reflexivity |]. cbn.
  repeat rewrite <- app_assoc. reflexivity.
Qed.

Lemma check_suspends (m m1 : Machine) (req : Request) (k : Response -> Prog unit) :
  exec check m = (m1, AwaitingFetch req k) ->
  isPaused (ui (store m1)) = true.
Proof.
  unfold checkForEncounters. cbn.
  destruct (currentTerrain (world (store m))) as [t |]; cbn; [| discriminate].
  destruct (Qgtb _ _); cbn; [discriminate |].
  destruct (chosenMonster _ _); cbn; [| discriminate].
  intros H. injection H as <- _ _. reflexivity.
Qed.


(** C1: while an encounter is in flight, that is from the pause dispatched
    before the request until the response is read, [ui.isPaused] is [true]
    and any run of key presses leaves the machine as it was; whenever
    [ui.isPaused] is [true], the listener of [keydown] and [handleKeyPress]
    return without a call to the player and without opening the help. *)
Theorem paused_input_is_discarded (m m1 : Machine) (req : Request)
    (k : Response -> Prog unit) (keys : list string) :
  exec check m = (m1, AwaitingFetch req k) ->
  isPaused (ui (store m1)) = true
  /\ press_keys keys m1 = m1
  /\ (forall resp, exists m2 k',
        exec (k resp) m1 = (m2, AwaitingJson resp k')
        /\ isPaused (ui (store m2)) = true
        /\ press_keys keys m2 = m2)
  /\ (forall m' key, isPaused (ui (store m')) = true ->
        exec (on_keydown key) m' = (m', Done tt)
        /\ exec (handleKeyPress key) m' = (m', Done tt)).
Proof.
  intros Hexec.
  pose proof (check_suspends _ Hexec) as Hpaused.
  split; [exact Hpaused |].
  split; [apply press_keys_paused, Hpaused |].
  split.
  - intros resp. revert Hexec.
    unfold checkForEncounters. cbn.
    destruct (currentTerrain (world (store m))) as [t |]; cbn; [| discriminate].
    destruct (Qgtb _ _); cbn; [discriminate |].
    destruct (chosenMonster _ _); cbn; [| discriminate].
    intros H. injection H as <- _ <-. cbn.
    eexists _, _. split; [reflexivity |].
    split; [reflexivity | apply press_keys_paused; reflexivity].
  - intros m' key Hp. split;
      [apply on_keydown_paused | apply handleKeyPress_paused]; exact Hp.
Qed.

(** C9: a triggered encounter whose request is answered by a body with a
    [text] makes these calls, in this order: the pause is dispatched, then
    one request is issued, a [POST] whose body is the serialization of
    [{prompt}] with [prompt] the serialization of the object of the keys
    [currentTerrain], [monster], [playerState] and [surroundingTerrain], in
    this order and with the values the source gives them; the body of the
    response is read, the resume is dispatched, and [WINDOW_OPEN] is emitted
    with the text as its content.  It holds whatever the arithmetic of the
    draws is. *)
Theorem encounter_sequence (m : Machine) (t : Terrain) (chosen : Monster)
    (resp : Response) (data encounterDescription : Value) :
  let currentState := store m in
  let r0 := rng m (drawn m) in
  let r1 := rng m (S (drawn m)) in
  let r2 := rng m (S (S (drawn m))) in
  let candidates :=
    validMonsters MONSTERS (currentBiome (world currentState)) in
  let roll := mul arith r1 (totalWeight candidates) in
  let level :=
    Math_round (add arith (mul arith r2 (maxLevel chosen - minLevel chosen))
                          (minLevel chosen)) in
  let playerState := player currentState in
  let x := pos_x (position playerState) in
  let y := pos_y (position playerState) in
  let currentTerrain_text :=
    Number_toString x ++ "," ++ Number_toString y ++ ": "
    ++ nullable_toString (currentBiome (world currentState)) ++ " "
    ++ terrain_type t in
  let surroundingTerrain :=
    map (fun a =>
           Number_toString (adj_x a) ++ "," ++ Number_toString (adj_y a)
           ++ ": " ++ biomeName (adj_terrain a) ++ " "
           ++ terrain_type (terrain (adj_terrain a)))
        (getAdjacentTerrain x y 2) in
  let prompt :=
    JSON_stringify
      (VObj
         [("currentTerrain", VStr currentTerrain_text);
          ("monster",
           VObj [("abilities", abilities chosen);
                 ("aggression", aggression chosen);
                 ("behavior", behavior chosen);
                 ("description", description chosen);
                 ("intelligence", intelligence chosen);
                 ("level", VInt level);
                 ("lore", lore chosen);
                 ("maxHealth", VInt (level * baseHealth chosen));
                 ("name", VStr (name chosen));
                 ("size", size chosen)]);
          ("playerState",
           VObj [("abilities", VSet (map VStr (p_abilities playerState)));
                 ("conditions", VSet (map VStr (p_conditions playerState)));
                 ("energy", VInt (energy playerState));
                 ("health", VInt (health playerState));
                 ("maxEnergy", VInt (maxEnergy playerState));
                 ("maxHealth", VInt (maxHealth playerState));
                 ("position", VObj [("x", VInt x); ("y", VInt y)]);
                 ("requirements",
                  VSet (map VStr (requirements playerState)));
                 ("warned", VBool (warned playerState));
                 ("xp", VInt (xp playerState))]);
          ("surroundingTerrain", VArr (map VStr surroundingTerrain))]) in
  let req :=
    {| url := "/api/gen";
       body := JSON_stringify (VObj [("prompt", VStr prompt)]);
       headers := [("Content-Type", "application/json")];
       method := "POST" |} in
  let opened := {| buttons := ["Close"];
                   content := [encounterDescription];
                   title := "Encounter!" |} in
  currentTerrain (world currentState) = Some t ->
  (r0 <= div arith (difficulty t) 10)%Q ->
  chosenMonster candidates roll = Some chosen ->
  json resp = Fulfilled data ->
  get_property data "text" = Fulfilled encounterDescription ->
  exists m',
    exec_async check (Fulfilled resp) m = (m', Done tt)
    /\ log m' = (log m ++
         [ERandom r0; ERandom r1; ERandom r2;
          EDispatch (ui_isPaused true); EDraw;
          EFetch req;
          EJson resp;
          EDispatch (ui_isPaused false); EDraw; EDraw;
          EEmit (WINDOW_OPEN opened);
          EDispatch (ui_isPaused true); EDraw; ENewWindow opened])%list.
Proof.
  intros currentState r0 r1 r2 candidates roll level playerState x y
         currentTerrain_text surroundingTerrain prompt req opened
         Hterrain Htrigger Hchosen Hjson Htext.
  apply Qgtb_false in Htrigger.
  unfold exec_async, checkForEncounters. cbn.
  fold currentState. rewrite Hterrain. cbn.
  fold r0. unfold chance. rewrite Htrigger. cbn.
  fold currentState candidates r1 roll. rewrite Hchosen. cbn.
  rewrite Hjson. cbn. rewrite Htext. cbn.
  eexists. split; [reflexivity |]. cbn.
  repeat rewrite <- app_assoc. reflexivity.
Qed.

(** C4, as amended: when the external call fails, [fetch] rejecting or the
    body not being JSON, [generateAi] ends with that very error right after
    the pause and the request: nothing catches it, no resume is dispatched
    and [ui.isPaused] stays [true]. *)
Theorem failed_generation_stays_paused (m : Machine) (prompt : string)
    (fetched : Settled Response) (e : JsError) :
  failure fetched = Some e ->
  exists m',
    exec_async (generate prompt) fetched m = (m', Failed e)
    /\ isPaused (ui (store m')) = true
    /\ log m' = (log m ++
         [EDispatch (ui_isPaused true); EDraw;
          EFetch (api_request JSON_stringify prompt)]
         ++ match fetched with
            | Fulfilled resp => [EJson resp]
            | Rejected _ => []
            end)%list.
Proof.
  intros Hfail. unfold exec_async, generateAi. cbn.
  destruct fetched as [resp | e']; cbn in *.
  - destruct (json resp) as [data | e'] eqn:Hjson; [discriminate |].
    injection Hfail as ->. cbn.
    eexists. split; [reflexivity |]. split; [reflexivity |]. cbn.
    repeat rewrite <- app_assoc. reflexivity.
  - injection Hfail as ->.
    eexists. split; [reflexivity |]. split; [reflexivity |]. cbn.
    repeat rewrite <- app_assoc. reflexivity.
Qed.

End GameFacts.


(** ** The examples *)

Lemma no_terrain_no_encounter_witness :
  exec demo_checkForEncounters (boot createInitialState (fun _ => 0%Q))
  = (boot createInitialState (fun _ => 0%Q), Done tt).
Proof.
  apply no_terrain_no_encounter. reflexivity.
Defined.

Lemma paused_input_is_discarded_witness :
  let m1 := fst (exec demo_checkForEncounters in_the_marsh) in
  isPaused (ui (store m1)) = true
  /\ press_keys ["ArrowLeft"; "r"; "h"; "Escape"] m1 = m1.
Proof.
  intros m1.
  destruct (@paused_input_is_discarded demo_MONSTERS demo_getAdjacentTerrain
              JSON_stringify_plain exact in_the_marsh _ _ _
              ["ArrowLeft"; "r"; "h"; "Escape"] eq_refl)
    as (Hpaused & Hkeys & _).
  split; [exact Hpaused | exact Hkeys].
Defined.

Lemma encounter_sequence_witness :
  let prompt :=
    JSON_stringify_plain
      (VObj
         [("currentTerrain", VStr "1,0: Marsh swamp");
          ("monster",
           VObj [("abilities", VArr [VStr "bite"]);
                 ("aggression", VInt 6);
                 ("behavior", VStr "pack hunter");
                 ("description", VStr "A grey wolf.");
                 ("intelligence", VInt 3);
                 ("level", VInt 2);
                 ("lore", VStr "Wolves roam every land.");
                 ("maxHealth", VInt 20);
                 ("name", VStr "Wolf");
                 ("size", VStr "medium")]);
          ("playerState",
           VObj [("abilities", VSet []);
                 ("conditions", VSet []);
                 ("energy", VInt 100);
                 ("health", VInt 100);
                 ("maxEnergy", VInt 100);
                 ("maxHealth", VInt 100);
                 ("position", VObj [("x", VInt 1); ("y", VInt 0)]);
                 ("requirements", VSet []);
                 ("warned", VBool false);
                 ("xp", VInt 0)]);
          ("surroundingTerrain",
           VArr (map VStr
             ["-1,-2: Grassland plains"; "0,-2: Grassland plains";
              "1,-2: Marsh swamp"; "2,-2: Highlands crag";
              "3,-2: Highlands crag";
              "-1,-1: Grassland plains"; "0,-1: Grassland plains";
              "1,-1: Marsh swamp"; "2,-1: Highlands crag";
              "3,-1: Highlands crag";
              "-1,0: Grassland plains"; "0,0: Grassland plains";
              "2,0: Highlands crag"; "3,0: Highlands crag";
              "-1,1: Grassland plains"; "0,1: Grassland plains";
              "1,1: Marsh swamp"; "2,1: Highlands crag";
              "3,1: Highlands crag";
              "-1,2: Grassland plains"; "0,2: Grassland plains";
              "1,2: Marsh swamp"; "2,2: Highlands crag";
              "3,2: Highlands crag"]))]) in
  let req :=
    {| url := "/api/gen";
       body := JSON_stringify_plain (VObj [("prompt", VStr prompt)]);
       headers := [("Content-Type", "application/json")];
       method := "POST" |} in
  let opened := {| buttons := ["Close"];
                   content := [VStr "A wolf howls."];
                   title := "Encounter!" |} in
  exists m',
    exec_async demo_checkForEncounters (Fulfilled (ok_response "A wolf howls."))
               in_the_marsh = (m', Done tt)
    /\ log m' =
       [ERandom (1 # 2); ERandom (1 # 2); ERandom (1 # 2);
        EDispatch (ui_isPaused true); EDraw;
        EFetch req;
        EJson (ok_response "A wolf howls.");
        EDispatch (ui_isPaused false); EDraw; EDraw;
        EEmit (WINDOW_OPEN opened);
        EDispatch (ui_isPaused true); EDraw;
        ENewWindow opened].
Proof.
  apply (@encounter_sequence demo_MONSTERS demo_getAdjacentTerrain
           JSON_stringify_plain exact in_the_marsh swamp wolf
           (ok_response "A wolf howls.")
           (VObj [("text", VStr "A wolf howls.")])
           (VStr "A wolf howls."));
    try reflexivity.
  cbv. discriminate.
Defined.

Example prompt_in_the_marsh :
  encounter_prompt demo_getAdjacentTerrain JSON_stringify_plain
    (store in_the_marsh) swamp (instantiate wolf (1 # 2))
  = JSON_stringify_plain
      (VObj [("currentTerrain", VStr "1,0: Marsh swamp");
             ("monster",
              MonsterInstance_value (instantiate wolf (1 # 2)));
             ("playerState", PlayerState_value (player (store in_the_marsh)));
             ("surroundingTerrain",
              VArr (map VStr
                      (map describe_adjacent (demo_getAdjacentTerrain 1 0 2))))])
  /\ mi_level (instantiate wolf (1 # 2)) = 2
  /\ mi_maxHealth (instantiate wolf (1 # 2)) = 20
  /\ List.length (demo_getAdjacentTerrain 1 0 2) = 24%nat
  /\ nth_error (map describe_adjacent (demo_getAdjacentTerrain 1 0 2)) 0
     = Some "-1,-2: Grassland plains".
Proof. repeat split. Qed.

(** C4, as stated, fails: a rejected [fetch] and a body that is not JSON both
    end [generateAi] with the error, the game paused. *)
Lemma generateAi_does_not_recover :
  ~ recovers (generateAi JSON_stringify_plain "prompt")
             (Rejected FetchFailed) in_the_marsh
  /\ ~ recovers (generateAi JSON_stringify_plain "prompt")
               (Fulfilled garbled_response) in_the_marsh
  /\ (let (m', outcome) :=
        exec_async (generateAi JSON_stringify_plain "prompt")
                   (Rejected FetchFailed) in_the_marsh in
      outcome = Failed FetchFailed /\ isPaused (ui (store m')) = true).
Proof.
  split; [| split].
  - intros (m' & a & Hexec & _). cbv in Hexec. discriminate.
  - intros (m' & a & Hexec & _). cbv in Hexec. discriminate.
  - cbv. split; reflexivity.
Qed.

Lemma failed_generation_stays_paused_witness :
  exists m',
    exec_async (generateAi JSON_stringify_plain "prompt")
               (Fulfilled garbled_response) in_the_marsh
    = (m', Failed SyntaxError)
    /\ isPaused (ui (store m')) = true
    /\ log m' = [EDispatch (ui_isPaused true); EDraw;
                 EFetch (api_request JSON_stringify_plain "prompt");
                 EJson garbled_response].
Proof.
  apply (@failed_generation_stays_paused JSON_stringify_plain in_the_marsh
           "prompt" (Fulfilled garbled_response) SyntaxError).
  reflexivity.
Defined.

(** A well-formed body without [text]: the game resumes and the window shows
    [undefined]. *)
Example body_without_text :
  let (m', outcome) :=
    exec_async demo_checkForEncounters
      (Fulfilled {| status := 200; json := Fulfilled (VObj []) |})
      in_the_marsh in
  outcome = Done tt
  /\ In (EEmit (WINDOW_OPEN (encounter_window VUndefined))) (log m').
Proof.
  cbv. split; [reflexivity |].
  do 10 right. left. reflexivity.
Qed.

(** C2: the check returns when the draw is greater than the chance, so a draw
    equal to the chance goes on; on terrain of difficulty [0] the draw [0],
    which is not below [0/10], starts an encounter up to its request. *)
Theorem encounter_on_difficulty_zero :
  currentTerrain (world (store on_the_plains)) = Some plains
  /\ difficulty plains = 0
  /\ (0 <= rng on_the_plains 0 < 1)%Q
  /\ ~ (rng on_the_plains 0 < inject_Z (difficulty plains) / 10)%Q
  /\ exists m' req k,
       exec demo_checkForEncounters on_the_plains = (m', AwaitingFetch req k)
       /\ log m' = [ERandom 0; ERandom 0; ERandom 0;
                    EDispatch (ui_isPaused true); EDraw; EFetch req].
Proof.
  split; [reflexivity |]. split; [reflexivity |].
  split; [split; [discriminate | reflexivity] |].
  split; [discriminate |].
  eexists _, _, _. split; reflexivity.
Qed.

(** C3: with a catalog that has no monster for the biome, the check does not
    skip the encounter: it draws the roll and ends in a [TypeError], reading
    a field of the monster it did not find; it dispatches and emits
    nothing. *)
Theorem empty_candidates_raise :
  currentBiome (world (store in_the_highlands)) = Some "Highlands"
  /\ validMonsters marsh_MONSTERS (Some "Highlands") = []
  /\ exists m',
       exec marsh_checkForEncounters in_the_highlands = (m', Failed TypeError)
       /\ log m' = [ERandom (1 # 2); ERandom (1 # 2)]
       /\ store m' = store in_the_highlands.
Proof.
  split; [reflexivity |]. split; [reflexivity |].
  eexists. repeat split.
Qed.

(** C8: the handler of [PLAYER_MOVE] runs the encounter check before it
    recomputes the world info.  After a step from the plains onto the marsh
    the check reads the plains, of difficulty [0], and ends on the draw
    [1/2], which on the marsh, of difficulty [10], starts an encounter; the
    world info of the marsh is dispatched after the check. *)
Theorem encounter_check_before_world_info :
  position (player (store stepped_east)) = east
  /\ demo_getTerrain (pos_x east) (pos_y east)
     = {| terrain := swamp; biomeName := "Marsh" |}
  /\ currentTerrain (world (store stepped_east)) = Some plains
  /\ (rng stepped_east 0 < encounterChance swamp)%Q
  /\ (exists m',
        exec demo_on_PLAYER_MOVE stepped_east = (m', Done tt)
        /\ log m' = [ERandom (1 # 2);
                     EDispatch (world_info (Some "Marsh") (Some swamp));
                     EDraw; EDraw]
        /\ tasks m' = [])
  /\ (exists m' req k,
        exec demo_on_PLAYER_MOVE in_the_marsh = (m', Done tt)
        /\ tasks m' = [OnFetch req k]
        /\ log m' = [ERandom (1 # 2); ERandom (1 # 2); ERandom (1 # 2);
                     EDispatch (ui_isPaused true); EDraw; EFetch req;
                     EDispatch (world_info (Some "Marsh") (Some swamp));
                     EDraw; EDraw]).
Proof.
  split; [reflexivity |]. split; [reflexivity |]. split; [reflexivity |].
  split; [reflexivity |]. split.
  - eexists. repeat split.
  - eexists _, _, _. repeat split.
Qed.

(** The store of [stepped_east] is the one the handler of [PLAYER_MOVE] finds
    on the first step east of a game just started, and the run of that step:
    the draw of the check comes before the world info of the marsh. *)
Example first_step_east :
  store (fst (exec (state_dispatch (player_position east)) started))
  = store stepped_east
  /\ log (fst (exec (Player_move demo_MONSTERS demo_getTerrain
                                 demo_getAdjacentTerrain JSON_stringify_plain
                                 exact 1 0)
                    started))
     = [EDispatch (ui_isPaused false); EDraw;
        EDispatch (world_info (Some "Grassland") (Some plains)); EDraw;
        EDraw;
        EDispatch (player_position east); EDraw;
        EEmit PLAYER_MOVE;
        ERandom (1 # 2);
        EDispatch (world_info (Some "Marsh") (Some swamp)); EDraw;
        EDraw].
Proof. split; reflexivity. Qed.

(** ** The canvas *)

Lemma apply_font (o : Canvas.Op) (cv : Canvas.t) :
  Canvas.font (Canvas.apply o cv) = Canvas.font cv.
Proof. destruct o; reflexivity. Qed.

Lemma run_font (ops : list Canvas.Op) : forall cv : Canvas.t,
  Canvas.font (Canvas.run ops cv) = Canvas.font cv.
Proof.
  unfold Canvas.run.
  induction ops as [| o ops IH]; intros cv; [reflexivity |].
  simpl. rewrite IH. apply apply_font.
Qed.

(** C10: [setFont] without a style sets the font to the size, [px], the name
    and the word [undefined]; every text drawn afterwards, until the font is
    set again, hands that string to the context. *)
Theorem setFont_without_style (size : Z) (name : string) (cv : Canvas.t)
    (ops : list Canvas.Op) (s : string) (x y : Q) :
  let spec := Number_toString size ++ "px " ++ name ++ " undefined" in
  let cv' := Canvas.run ops (Canvas.setFont size name None cv) in
  Canvas.font (Canvas.setFont size name None cv) = spec
  /\ Canvas.ctx (Canvas.text s x y cv')
     = (Canvas.ctx cv' ++
        [Canvas.set_fillStyle (Canvas.color cv');
         Canvas.set_font spec;
         Canvas.fillText s x y])%list.
Proof.
  intros spec cv'. split; [reflexivity |].
  unfold Canvas.text. cbn [Canvas.call Canvas.ctx Canvas.font Canvas.color].
  unfold cv'. rewrite run_font. cbn [Canvas.setFont Canvas.font].
  fold spec. repeat rewrite <- app_assoc. reflexivity.
Qed.

(** The call of [Game.draw], and the text of the world drawn with it. *)
Example setFont_in_draw :
  let cv := Canvas.setFont 16 "ui-monospace" None (Canvas.create 800 600) in
  Canvas.font (Canvas.create 800 600) = "16px ui-monospace"
  /\ Canvas.font cv = "16px ui-monospace undefined"
  /\ Canvas.ctx (Canvas.text "~" 16 32 (Canvas.setColor "#4b5d3a" cv))
     = [Canvas.set_fillStyle "#4b5d3a";
        Canvas.set_font "16px ui-monospace undefined";
        Canvas.fillText "~" 16 32]
  /\ Canvas.font (Canvas.setFont 20 "ui-monospace" (Some "bold") cv)
     = "20px ui-monospace bold".
Proof. repeat split. Qed.

(** * Further properties *)

(** ** More on the sampler *)

Lemma includes_spec (biomes : list string) (biome : option string) :
  includes biomes biome = true <-> exists b, biome = Some b /\ In b biomes.
Proof.
  destruct biome as [b |]; cbn.
  - rewrite existsb_exists. split.
    + intros (x & Hin & Heq). apply String.eqb_eq in Heq. subst x.
      exists b. auto.
    + intros (b' & Heq & Hin). injection Heq as <-.
      exists b. split; [exact Hin | apply String.eqb_refl].
  - split; [discriminate | intros (b & Heq & _); discriminate].
Qed.

Lemma validMonsters_In (MONSTERS : list Monster) (biome : option string)
    (monster : Monster) :
  In monster (validMonsters MONSTERS biome)
  <-> In monster MONSTERS
      /\ (validBiomes monster = []
          \/ exists b, biome = Some b /\ In b (validBiomes monster)).
Proof.
  unfold validMonsters. rewrite filter_In, orb_true_iff, includes_spec.
  rewrite Nat.eqb_eq, length_zero_iff_nil. reflexivity.
Qed.

Lemma find_by_roll_In (highest : Z) (roll : Q) (candidates : list Monster) :
  forall acc chosen,
    find_by_roll highest roll acc candidates = Some chosen ->
    In chosen candidates.
Proof.
  induction candidates as [| c cs IH]; intros acc chosen; cbn [find_by_roll].
  - discriminate.
  - destruct (Qltb roll _).
    + intros H. injection H as <-. now left.
    + intros H. right. eapply IH, H.
Qed.

Lemma chosenMonster_In (candidates : list Monster) (roll : Q)
    (chosen : Monster) :
  chosenMonster candidates roll = Some chosen -> In chosen candidates.
Proof.
  unfold chosenMonster.
  destruct (find_by_roll _ roll 0 candidates) as [found |] eqn:Hfind.
  - intros H. injection H as <-. eapply find_by_roll_In, Hfind.
  - destruct candidates as [| c cs]; cbn; [discriminate |].
    intros H. injection H as <-. now left.
Qed.

Lemma chosenMonster_None (candidates : list Monster) (roll : Q) :
  chosenMonster candidates roll = None <-> candidates = [].
Proof.
  split.
  - unfold chosenMonster. destruct (find_by_roll _ roll 0 candidates);
      [discriminate |].
    destruct candidates; [reflexivity | discriminate].
  - intros ->. reflexivity.
Qed.

(** X1: the candidates are the monsters of the catalog that are bound to no
    biome or list the current one, in the order of the catalog; when no
    biome is observed they are the monsters bound to no biome. *)
Theorem validMonsters_spec (MONSTERS : list Monster) (biome : option string) :
  (forall monster,
      In monster (validMonsters MONSTERS biome)
      <-> In monster MONSTERS
          /\ (validBiomes monster = []
              \/ exists b, biome = Some b /\ In b (validBiomes monster)))
  /\ (forall monster,
        In monster (validMonsters MONSTERS None) ->
        validBiomes monster = [])
  /\ (forall before after,
        MONSTERS = (before ++ after)%list ->
        validMonsters MONSTERS biome
        = (validMonsters before biome ++ validMonsters after biome)%list).
Proof.
  split; [| split].
  - intros monster. apply validMonsters_In.
  - intros monster Hin. apply validMonsters_In in Hin.
    destruct Hin as [_ [Hany | (b & Hb & _)]]; [exact Hany | discriminate].
  - intros before after ->. unfold validMonsters. apply filter_app.
Qed.

(** X2: the monster chosen among the candidates of a biome is a monster of
    the catalog that is bound to no biome or lists that biome, whatever the
    roll. *)
Theorem chosen_is_valid_candidate (MONSTERS : list Monster)
    (biome : option string) (roll : Q) (chosen : Monster) :
  chosenMonster (validMonsters MONSTERS biome) roll = Some chosen ->
  In chosen MONSTERS
  /\ (validBiomes chosen = []
      \/ exists b, biome = Some b /\ In b (validBiomes chosen)).
Proof.
  intros H. apply chosenMonster_In in H.
  unfold validMonsters in H. apply filter_In in H. destruct H as [Hin Hok].
  split; [exact Hin |].
  apply orb_true_iff in Hok. destruct Hok as [Hempty | Hinc].
  - left. apply Nat.eqb_eq in Hempty. now apply length_zero_iff_nil.
  - right. now apply includes_spec.
Qed.

Lemma cumulativeWeight_first (highest : Z) (candidates : list Monster)
    (c : Monster) :
  nth_error candidates 0 = Some c ->
  cumulativeWeight highest candidates 0 = weight highest c.
Proof.
  destruct candidates as [| c0 cs]; [discriminate |].
  intros H. injection H as <-. unfold cumulativeWeight. cbn. lia.
Qed.

Lemma cumulativeWeight_step (highest : Z) (candidates : list Monster) :
  forall i c,
    nth_error candidates (S i) = Some c ->
    cumulativeWeight highest candidates (S i)
    = cumulativeWeight highest candidates i + weight highest c.
Proof.
  induction candidates as [| c0 cs IH]; intros i c Hnth; [discriminate |].
  cbn [nth_error] in Hnth. rewrite cumulativeWeight_cons.
  destruct i as [| i].
  - rewrite (cumulativeWeight_first _ _ Hnth).
    unfold cumulativeWeight. cbn. lia.
  - rewrite (IH i c Hnth), cumulativeWeight_cons. lia.
Qed.

Lemma cumulativeWeight_below (candidates : list Monster) :
  let highest := highestRarity candidates in
  forall i c j,
    nth_error candidates i = Some c -> (j < i)%nat ->
    cumulativeWeight highest candidates j
    <= cumulativeWeight highest candidates i - weight highest c.
Proof.
  intros highest. induction i as [| i IH]; intros c j Hnth Hj; [lia |].
  rewrite (cumulativeWeight_step _ _ _ Hnth).
  destruct (nth_error candidates i) as [c' |] eqn:Hi.
  - destruct (Nat.eq_dec j i) as [-> | Hne]; [lia |].
    specialize (IH c' j eq_refl ltac:(lia)).
    assert (1 <= weight highest c').
    { apply weight_positive. eapply nth_error_In, Hi. }
    lia.
  - apply nth_error_None in Hi.
    assert (S i < List.length candidates)%nat
      by (apply nth_error_Some; congruence).
    lia.
Qed.

(** X3: the candidate of index [i] is chosen on every roll from the
    cumulative weight of the candidates before it, included, up to its own
    cumulative weight, excluded: an interval as long as its weight. *)
Theorem chosen_on_its_interval (candidates : list Monster) (roll : Q)
    (i : nat) (c : Monster) :
  let highest := highestRarity candidates in
  nth_error candidates i = Some c ->
  (inject_Z (cumulativeWeight highest candidates i - weight highest c) <= roll)%Q ->
  (roll < inject_Z (cumulativeWeight highest candidates i))%Q ->
  chosenMonster candidates roll = Some c.
Proof.
  intros highest Hnth Hlow Hhigh.
  assert (Hlen : (i < List.length candidates)%nat)
    by (apply nth_error_Some; congruence).
  destruct (chosenMonster_spec candidates roll)
    as [(i' & chosen & Hchosen & Hnth' & Hroll & Hbefore) | [Hnone _]].
  - fold highest in Hroll, Hbefore.
    assert (i' = i) as ->.
    { destruct (Nat.lt_trichotomy i' i) as [Hlt | [Heq | Hgt]];
        [| exact Heq |].
      - exfalso.
        pose proof (@cumulativeWeight_below candidates i c i' Hnth Hlt) as Hmono.
        fold highest in Hmono. rewrite Zle_Qle in Hmono.
        apply (Qlt_irrefl roll).
        eapply Qlt_le_trans; [exact Hroll |].
        eapply Qle_trans; [exact Hmono | exact Hlow].
      - exfalso. apply (Qlt_irrefl roll).
        eapply Qlt_le_trans; [exact Hhigh | apply Hbefore, Hgt]. }
    congruence.
  - exfalso. fold highest in Hnone. apply (Qlt_irrefl roll).
    eapply Qlt_le_trans; [exact Hhigh | apply Hnone, Hlen].
Qed.


(** ** More on the orchestrator *)

Lemma merge_running (s : GameState) :
  isPaused (ui s) = false -> merge s (ui_isPaused false) = s.
Proof.
  destruct s as [p [paused ws] w]. cbn. intros ->. reflexivity.
Qed.

Section MoreGameFacts.

Variable MONSTERS : list Monster.
Variable getTerrain : Z -> Z -> TerrainInfo.
Variable getAdjacentTerrain : Z -> Z -> Z -> list AdjacentTerrain.
Variable JSON_stringify : Value -> string.
Variable arith : Arithmetic.

Local Notation "'check'" :=
  (checkForEncounters MONSTERS getAdjacentTerrain JSON_stringify arith).
Local Notation "'generate'" := (generateAi JSON_stringify).
Local Notation "'moved'" :=
  (on_PLAYER_MOVE MONSTERS getTerrain getAdjacentTerrain JSON_stringify
                  arith).

(** X6: the synchronous part of [checkForEncounters] throws exactly when a
    terrain is observed, the draw is not greater than the chance the
    arithmetic computes for its difficulty, and no monster is a candidate;
    the error is then a [TypeError].  It holds whatever the arithmetic is,
    that of the doubles included. *)
Theorem check_fails_iff (m : Machine) (e : JsError) :
  (exists m', exec check m = (m', Failed e))
  <-> e = TypeError
      /\ exists t,
           currentTerrain (world (store m)) = Some t
           /\ (rng m (drawn m) <= chance arith t)%Q
           /\ validMonsters MONSTERS (currentBiome (world (store m))) = [].
Proof.
  unfold checkForEncounters. cbn.
  destruct (currentTerrain (world (store m))) as [t |]; cbn.
  - destruct (Qgtb (rng m (drawn m)) (chance arith t)) eqn:Hgt; cbn.
    + split.
      * intros (m' & H). discriminate.
      * intros (_ & t' & Ht & Hle & _). injection Ht as <-.
        apply Qgtb_false in Hle. congruence.
    + apply Qgtb_false in Hgt.
      destruct (chosenMonster _ _) as [chosen |] eqn:Hchosen; cbn.
      * split.
        -- intros (m' & H). discriminate.
        -- intros (_ & t' & _ & _ & Hnone).
           rewrite Hnone in Hchosen. discriminate.
      * apply chosenMonster_None in Hchosen. split.
        -- intros (m' & H). injection H as _ <-.
           split; [reflexivity |]. exists t. auto.
        -- intros (-> & _). eexists. reflexivity.
  - split.
    + intros (m' & H). discriminate.
    + intros (_ & t & Ht & _). discriminate.
Qed.

(** X7: with a monster bound to no biome in the catalog, the synchronous
    part of [checkForEncounters] never throws: it returns or it is suspended
    at its request. *)
Theorem universal_monster_never_fails (m : Machine) (monster : Monster) :
  In monster MONSTERS -> validBiomes monster = [] ->
  exists m',
    exec check m = (m', Done tt)
    \/ exists req k, exec check m = (m', AwaitingFetch req k).
Proof.
  intros Hin Hany. unfold checkForEncounters. cbn.
  destruct (currentTerrain (world (store m))) as [t |]; cbn;
    [| eexists; left; reflexivity].
  destruct (Qgtb _ _); cbn; [eexists; left; reflexivity |].
  destruct (chosenMonster _ _) as [chosen |] eqn:Hchosen; cbn.
  - eexists. right. eexists _, _. reflexivity.
  - exfalso. apply chosenMonster_None in Hchosen.
    assert (Hc : In monster
                    (validMonsters MONSTERS (currentBiome (world (store m))))).
    { apply validMonsters_In. auto. }
    rewrite Hchosen in Hc. destruct Hc.
Qed.

(** X8: however the request settles, an encounter check leaves the player,
    the world info and the list of windows of the store as they were. *)
Theorem check_keeps_player_and_world (m : Machine)
    (fetched : Settled Response) :
  let m' := fst (exec_async check fetched m) in
  player (store m') = player (store m)
  /\ world (store m') = world (store m)
  /\ windows (ui (store m')) = windows (ui (store m)).
Proof.
  unfold exec_async, checkForEncounters. cbn.
  destruct (currentTerrain (world (store m))) as [t |]; cbn; [| auto].
  destruct (Qgtb _ _); cbn; [auto |].
  destruct (chosenMonster _ _) as [chosen |]; cbn; [| auto].
  destruct fetched as [resp | e]; cbn; [| auto].
  destruct (json resp) as [data | e]; cbn; [| auto].
  destruct (get_property data "text") as [txt | e]; cbn; auto.
Qed.

(** X9: when the body of the response parses to a value whose [text] cannot
    be read, [generateAi] fails after the resume: the game is left running
    and the error is that of the property access. *)
Theorem unreadable_body_fails_after_resume (m : Machine) (prompt : string)
    (resp : Response) (data : Value) (e : JsError) :
  json resp = Fulfilled data ->
  get_property data "text" = Rejected e ->
  exists m',
    exec_async (generate prompt) (Fulfilled resp) m = (m', Failed e)
    /\ isPaused (ui (store m')) = false
    /\ log m' = (log m ++
         [EDispatch (ui_isPaused true); EDraw;
          EFetch (api_request JSON_stringify prompt);
          EJson resp;
          EDispatch (ui_isPaused false); EDraw; EDraw])%list.
Proof.
  intros Hjson Htext. unfold exec_async, generateAi. cbn.
  rewrite Hjson. cbn. rewrite Htext. cbn.
  eexists. split; [reflexivity |]. split; [reflexivity |]. cbn.
  repeat rewrite <- app_assoc. reflexivity.
Qed.

(** X10: an encounter that completes leaves the game paused, by the handler
    of its window; the handler of [WINDOW_CLOSE] then brings the store back
    to what it was before the encounter. *)
Theorem encounter_then_close (m : Machine) (t : Terrain) (chosen : Monster)
    (resp : Response) (data description : Value) :
  let candidates :=
    validMonsters MONSTERS (currentBiome (world (store m))) in
  currentTerrain (world (store m)) = Some t ->
  (rng m (drawn m) <= chance arith t)%Q ->
  chosenMonster candidates
    (mul arith (rng m (S (drawn m))) (totalWeight candidates)) = Some chosen ->
  json resp = Fulfilled data ->
  get_property data "text" = Fulfilled description ->
  isPaused (ui (store m)) = false ->
  exists m1 m2,
    exec_async check (Fulfilled resp) m = (m1, Done tt)
    /\ isPaused (ui (store m1)) = true
    /\ exec on_WINDOW_CLOSE m1 = (m2, Done tt)
    /\ store m2 = store m.
Proof.
  intros candidates Hterrain Htrigger Hchosen Hjson Htext Hrunning.
  apply Qgtb_false in Htrigger.
  unfold exec_async, checkForEncounters. cbn.
  rewrite Hterrain. cbn. rewrite Htrigger. cbn.
  fold candidates. rewrite Hchosen. cbn.
  rewrite Hjson. cbn. rewrite Htext. cbn.
  eexists _, _. split; [reflexivity |]. split; [reflexivity |].
  split; [reflexivity |]. cbn.
  destruct (store m) as [p [paused ws] w]. cbn in *. now subst paused.
Qed.

(** X11: the handler of [PLAYER_MOVE] always returns, also when the check
    throws or is suspended, and leaves in the store the world info of the
    position of the player, the player and the windows untouched. *)
Theorem on_PLAYER_MOVE_updates_world_info (m : Machine) :
  let p := position (player (store m)) in
  let info := getTerrain (pos_x p) (pos_y p) in
  exists m',
    exec moved m = (m', Done tt)
    /\ world (store m')
       = {| currentBiome := Some (biomeName info);
            currentTerrain := Some (terrain info) |}
    /\ player (store m') = player (store m)
    /\ windows (ui (store m')) = windows (ui (store m)).
Proof.
  intros p info. unfold on_PLAYER_MOVE, checkForEncounters. cbn.
  destruct (currentTerrain (world (store m))) as [t |]; cbn.
  - destruct (Qgtb _ _); cbn.
    + eexists. repeat split.
    + destruct (chosenMonster _ _) as [chosen |]; cbn;
        eexists; repeat split.
  - eexists. repeat split.
Qed.

(** X12: [start] leaves the game running with the world info of the cell
    the player stands on, so that the first check reads an observed
    terrain. *)
Theorem start_observes_start_cell (m : Machine) :
  let p := position (player (store m)) in
  let info := getTerrain (pos_x p) (pos_y p) in
  exists m',
    exec (start getTerrain) m = (m', Done tt)
    /\ isPaused (ui (store m')) = false
    /\ world (store m')
       = {| currentBiome := Some (biomeName info);
            currentTerrain := Some (terrain info) |}
    /\ player (store m') = player (store m)
    /\ log m' = (log m ++
         [EDispatch (ui_isPaused false); EDraw;
          EDispatch (world_info (Some (biomeName info)) (Some (terrain info)));
          EDraw; EDraw])%list.
Proof.
  intros p info. unfold start. cbn.
  eexists. repeat split. cbn. repeat rewrite <- app_assoc. reflexivity.
Qed.

End MoreGameFacts.

(** X13: on a running game [h] and [Escape] open the help window once and
    pause; the key presses that follow are discarded, and the handler of
    [WINDOW_CLOSE] brings the store back. *)
Theorem help_key_pauses (m : Machine) (key : string) (keys : list string) :
  isPaused (ui (store m)) = false ->
  key = "h" \/ key = "Escape" ->
  let m' := press_keys (key :: keys) m in
  isPaused (ui (store m')) = true
  /\ log m' = (log m ++
       [EEmit (WINDOW_OPEN help_window);
        EDispatch (ui_isPaused true); EDraw;
        ENewWindow help_window])%list
  /\ store (fst (exec on_WINDOW_CLOSE m')) = store m.
Proof.
  intros Hrunning Hkey m'. unfold m'. cbn [press_keys].
  assert (Hone : exec (on_keydown key) m = exec help m).
  { unfold on_keydown, handleKeyPress.
    destruct Hkey as [-> | ->]; cbn; rewrite Hrunning; cbn;
      rewrite Hrunning; reflexivity. }
  rewrite Hone. unfold help. cbn.
  rewrite press_keys_paused by reflexivity. cbn.
  repeat rewrite <- app_assoc. split; [reflexivity |].
  split; [reflexivity |].
  destruct (store m) as [p [paused ws] w]. cbn in *. now subst paused.
Qed.

Ltac listed := cbn [In handled_keys]; repeat (first [left; reflexivity | right]).

Ltac key_cases n :=
  lazymatch n with
  | O => idtac
  | S ?n' =>
      lazymatch goal with
      | key : string |- _ =>
          destruct key as [| [[|] [|] [|] [|] [|] [|] [|] [|]] key];
          try reflexivity;
          try (exfalso; match goal with H : ~ _ |- _ => apply H end; listed; fail);
          key_cases n'
      end
  end.

(** X14: a key that is no label of the [switch] does nothing, paused or
    not. *)
Theorem other_keys_are_ignored (m : Machine) (key : string) :
  ~ In key handled_keys ->
  exec (on_keydown key) m = (m, Done tt).
Proof.
  intros Hnot. unfold on_keydown, handleKeyPress. cbn.
  destruct (isPaused (ui (store m))) eqn:Hp; [reflexivity |].
  cbn. rewrite Hp.
  key_cases 11%nat.
Qed.

(** ** The grid and the painting *)

Lemma span_length (lo : Z) (n : nat) : List.length (span lo n) = n.
Proof. unfold span. now rewrite length_map, length_seq. Qed.

Lemma span_In (lo : Z) (n : nat) (i : Z) :
  In i (span lo n) <-> lo <= i < lo + Z.of_nat n.
Proof.
  unfold span. rewrite in_map_iff. split.
  - intros (k & <- & Hk). apply in_seq in Hk. lia.
  - intros Hi. exists (Z.to_nat (i - lo)). split; [lia |].
    apply in_seq. lia.
Qed.

Lemma span_S (lo : Z) (n : nat) :
  span lo (S n) = (span lo n ++ [lo + Z.of_nat n])%list.
Proof.
  unfold span. rewrite seq_S, map_app. reflexivity.
Qed.

(** X15: for a canvas extent that is not negative and a positive font size,
    the number of cells is at least one, the last cell starts on the canvas
    and ends beyond it, and the cell of the centre, where the player is
    drawn, starts on the canvas. *)
Theorem cells_cover (extent fontSize : Z) :
  0 <= extent -> 0 < fontSize ->
  let n := Render.cells extent fontSize in
  1 <= n
  /\ (n - 1) * fontSize <= extent < n * fontSize
  /\ 0 <= n / 2 < n
  /\ (n / 2) * fontSize <= extent.
Proof.
  intros Hext Hfs n. unfold Render.cells in n.
  pose proof (Z.div_pos extent fontSize Hext Hfs) as Hq.
  pose proof (Z.mul_div_le extent fontSize Hfs) as Hle.
  pose proof (Z.mul_succ_div_gt extent fontSize Hfs) as Hgt.
  assert (Hn : 1 <= n) by (unfold n; lia).
  assert (Hhalf : 0 <= n / 2 < n).
  { split; [apply Z.div_pos; lia | apply Z.div_lt_upper_bound; lia]. }
  split; [exact Hn |]. split; [unfold n; nia |]. split; [exact Hhalf |].
  unfold n in *. nia.
Qed.

Lemma screenToWorld_player (g : Render.Grid) (p : Position) (sx sy : Z) :
  Render.screenToWorld g p sx sy = p
  <-> sx = Render.screenCenterX g /\ sy = Render.screenCenterY g.
Proof.
  destruct p as [px py]. unfold Render.screenToWorld. cbn [pos_x pos_y].
  split.
  - intros H. injection H as Hx Hy. lia.
  - intros [-> ->]. f_equal; lia.
Qed.

Lemma is_center_true (g : Render.Grid) (cell : Z * Z) :
  Render.is_center g cell = true
  <-> fst cell = Render.screenCenterX g /\ snd cell = Render.screenCenterY g.
Proof.
  unfold Render.is_center. now rewrite andb_true_iff, !Z.eqb_eq.
Qed.

Lemma flat_map_pairs (A B C : Type) (f : A * B -> list C)
    (xs : list A) (ys : list B) :
  flat_map f (flat_map (fun x => map (fun y => (x, y)) ys) xs)
  = flat_map (fun x => flat_map (fun y => f (x, y)) ys) xs.
Proof.
  induction xs as [| x xs IH]; cbn [flat_map]; [reflexivity |].
  rewrite flat_map_app, IH. f_equal. clear IH.
  induction ys as [| y ys IH']; cbn [flat_map map]; [reflexivity |].
  now rewrite IH'.
Qed.

Section DrawFacts.

Variable getTerrain : Z -> Z -> TerrainInfo.
Variable Player_draw : Q -> Q -> Canvas.t -> Canvas.t.

(** What a run of canvas methods that keep the font and the font size asks
    of the context, when each method is known by its calls. *)
Lemma fold_calls (A : Type) (f : A -> Canvas.t -> Canvas.t)
    (calls : A -> list Canvas.CtxCall) (font : string) (fontSize : Z) :
  (forall a cv,
      Canvas.font cv = font -> Canvas.fontSize cv = fontSize ->
      Canvas.font (f a cv) = font /\ Canvas.fontSize (f a cv) = fontSize
      /\ Canvas.ctx (f a cv) = (Canvas.ctx cv ++ calls a)%list) ->
  forall (l : list A) (cv : Canvas.t),
    Canvas.font cv = font -> Canvas.fontSize cv = fontSize ->
    let cv' := fold_left (fun cv a => f a cv) l cv in
    Canvas.font cv' = font /\ Canvas.fontSize cv' = fontSize
    /\ Canvas.ctx cv' = (Canvas.ctx cv ++ flat_map calls l)%list.
Proof.
  intros Hstep l. induction l as [| a l IH]; intros cv Hfont Hsize; cbn.
  - now rewrite app_nil_r.
  - destruct (Hstep a cv Hfont Hsize) as (Hf & Hs & Hc).
    destruct (IH (f a cv) Hf Hs) as (Hf' & Hs' & Hc').
    repeat split; [exact Hf' | exact Hs' |].
    rewrite Hc', Hc, <- app_assoc. reflexivity.
Qed.

Lemma draw_cell_calls (g : Render.Grid) (p : Position) (cv0 : Canvas.t)
    (sx sy : Z) (cv : Canvas.t) :
  Canvas.font cv = Render.cell_font cv0 ->
  Canvas.fontSize cv = Canvas.fontSize cv0 ->
  Canvas.font (Render.draw_cell getTerrain g p sx sy cv) = Render.cell_font cv0
  /\ Canvas.fontSize (Render.draw_cell getTerrain g p sx sy cv)
     = Canvas.fontSize cv0
  /\ Canvas.ctx (Render.draw_cell getTerrain g p sx sy cv)
     = (Canvas.ctx cv ++ Render.cell_calls getTerrain g p cv0 (sx, sy))%list.
Proof.
  intros Hfont Hsize. unfold Render.draw_cell, Render.cell_calls, Render.is_center.
  cbn [fst snd].
  destruct ((sx =? Render.screenCenterX g) && (sy =? Render.screenCenterY g)).
  - rewrite app_nil_r. repeat split; assumption.
  - cbn. rewrite Hfont, Hsize, <- !app_assoc. repeat split.
Qed.

Lemma draw_world_run (g : Render.Grid) (p : Position) (cv : Canvas.t) :
  let W := inject_Z (Canvas.canvas_width cv) in
  let H := inject_Z (Canvas.canvas_height cv) in
  Canvas.font (Render.draw_world getTerrain g p cv) = Render.cell_font cv
  /\ Canvas.fontSize (Render.draw_world getTerrain g p cv) = Canvas.fontSize cv
  /\ Canvas.ctx (Render.draw_world getTerrain g p cv)
  = (Canvas.ctx cv
     ++ [Canvas.clearRect 0 0 W H;
         Canvas.set_fillStyle "black";
         Canvas.fillRect 0 0 W H]
     ++ flat_map (Render.cell_calls getTerrain g p cv) (Render.cells_of g))%list.
Proof.
  intros W H. unfold Render.draw_world, Render.for_below, Render.cells_of.
  set (cv1 := Canvas.setFont _ _ _ _).
  assert (Hfont : Canvas.font cv1 = Render.cell_font cv) by reflexivity.
  assert (Hsize : Canvas.fontSize cv1 = Canvas.fontSize cv) by reflexivity.
  pose proof (@fold_calls Z
    (fun sx => fold_left (fun cv sy => Render.draw_cell getTerrain g p sx sy cv)
                         (span 0 (Z.to_nat (Render.cellsDown g))))
    (fun sx => flat_map (fun sy => Render.cell_calls getTerrain g p cv (sx, sy))
                        (span 0 (Z.to_nat (Render.cellsDown g))))
    (Render.cell_font cv) (Canvas.fontSize cv)) as Houter.
  destruct (Houter
              ltac:(intros sx c Hf Hs;
                    apply (@fold_calls Z
                             (fun sy => Render.draw_cell getTerrain g p sx sy)
                             (fun sy => Render.cell_calls getTerrain g p cv (sx, sy)));
                    [intros sy c' Hf' Hs'; now apply draw_cell_calls
                    | exact Hf | exact Hs])
              (span 0 (Z.to_nat (Render.cellsAcross g))) cv1 Hfont Hsize)
    as (Hf & Hs & Hctx).
  split; [exact Hf |]. split; [exact Hs |].
  rewrite Hctx. unfold cv1. cbn [Canvas.setFont Canvas.ctx Canvas.bg Canvas.clear Canvas.call
       Canvas.canvas_width Canvas.canvas_height].
  rewrite <- !app_assoc. cbn [app]. rewrite flat_map_pairs. reflexivity.
Qed.

Lemma hits_app (A : Type) (p : A -> bool) (l l' : list A) :
  hits p (l ++ l') = (hits p l + hits p l')%nat.
Proof. unfold hits. now rewrite filter_app, length_app. Qed.

Lemma hits_column (g : Render.Grid) (sx : Z) (k : nat) :
  hits (Render.is_center g) (map (fun sy => (sx, sy)) (span 0 k))
  = if (sx =? Render.screenCenterX g)
       && (0 <=? Render.screenCenterY g)
       && (Render.screenCenterY g <? Z.of_nat k)
    then 1%nat else 0%nat.
Proof.
  induction k as [| k IH].
  - cbn [span seq map hits filter List.length Z.of_nat].
    destruct (sx =? _), (Z.leb_spec 0 (Render.screenCenterY g)),
             (Z.ltb_spec (Render.screenCenterY g) 0);
      cbn; try reflexivity; lia.
  - rewrite span_S, map_app, hits_app, IH. cbn [map].
    unfold hits, Render.is_center. cbn [filter fst snd].
    destruct (Z.eqb_spec sx (Render.screenCenterX g)); cbn [andb];
      [| reflexivity].
    destruct (Z.leb_spec 0 (Render.screenCenterY g)),
             (Z.ltb_spec (Render.screenCenterY g) (Z.of_nat k)),
             (Z.ltb_spec (Render.screenCenterY g) (Z.of_nat (S k))),
             (Z.eqb_spec (0 + Z.of_nat k) (Render.screenCenterY g));
      cbn; lia.
Qed.

Lemma hits_cells (g : Render.Grid) :
  0 <= Render.screenCenterX g < Render.cellsAcross g ->
  0 <= Render.screenCenterY g < Render.cellsDown g ->
  hits (Render.is_center g) (Render.cells_of g) = 1%nat.
Proof.
  intros Hx Hy. unfold Render.cells_of.
  set (ys := span 0 (Z.to_nat (Render.cellsDown g))).
  assert (Hcol : forall sx,
             hits (Render.is_center g) (map (fun sy => (sx, sy)) ys)
             = if sx =? Render.screenCenterX g then 1%nat else 0%nat).
  { intros sx. unfold ys. rewrite hits_column.
    destruct (sx =? _); [| reflexivity].
    destruct (Z.leb_spec 0 (Render.screenCenterY g)); [| lia].
    destruct (Z.ltb_spec (Render.screenCenterY g)
                         (Z.of_nat (Z.to_nat (Render.cellsDown g))));
      [reflexivity | lia]. }
  assert (Hall : forall k,
             hits (Render.is_center g)
                  (flat_map (fun sx => map (fun sy => (sx, sy)) ys) (span 0 k))
             = if Render.screenCenterX g <? Z.of_nat k then 1%nat else 0%nat).
  { induction k as [| k IH].
    - cbn. destruct (Z.ltb_spec (Render.screenCenterX g) 0); [lia | reflexivity].
    - rewrite span_S, flat_map_app, hits_app, IH. cbn [flat_map].
      rewrite app_nil_r, Hcol.
      destruct (Z.ltb_spec (Render.screenCenterX g) (Z.of_nat k)),
               (Z.ltb_spec (Render.screenCenterX g) (Z.of_nat (S k))),
               (Z.eqb_spec (0 + Z.of_nat k) (Render.screenCenterX g));
        lia. }
  rewrite Hall.
  destruct (Z.ltb_spec (Render.screenCenterX g)
                       (Z.of_nat (Z.to_nat (Render.cellsAcross g))));
    [reflexivity | lia].
Qed.

Lemma cells_of_length (g : Render.Grid) :
  List.length (Render.cells_of g)
  = (Z.to_nat (Render.cellsAcross g) * Z.to_nat (Render.cellsDown g))%nat.
Proof.
  unfold Render.cells_of.
  set (ys := span 0 (Z.to_nat (Render.cellsDown g))).
  assert (Hys : List.length ys = Z.to_nat (Render.cellsDown g))
    by apply span_length.
  rewrite <- (span_length 0 (Z.to_nat (Render.cellsAcross g))) at 2.
  induction (span 0 (Z.to_nat (Render.cellsAcross g))) as [| sx xs IH];
    cbn [flat_map List.length]; [reflexivity |].
  rewrite length_app, length_map, IH, Hys. lia.
Qed.

Lemma fillText_per_cell (g : Render.Grid) (p : Position) (cv : Canvas.t)
    (l : list (Z * Z)) :
  hits Render.is_fillText (flat_map (Render.cell_calls getTerrain g p cv) l)
  = hits (fun cell => negb (Render.is_center g cell)) l.
Proof.
  induction l as [| cell l IH]; [reflexivity |].
  cbn [flat_map]. rewrite hits_app, IH.
  unfold hits at 3. cbn [filter]. unfold Render.cell_calls.
  destruct (Render.is_center g cell); reflexivity.
Qed.

(** X16: [draw] paints a cell exactly when the cell does not show the
    position of the player; it then sets the colour of the terrain at the
    world coordinates of the cell and writes its label at the pixel of the
    cell. *)
Theorem draw_cell_skips_player (g : Render.Grid) (p : Position) (sx sy : Z)
    (cv : Canvas.t) :
  let w := Render.screenToWorld g p sx sy in
  let t := terrain (getTerrain (pos_x w) (pos_y w)) in
  (w = p -> Render.draw_cell getTerrain g p sx sy cv = cv)
  /\ (w <> p ->
      Canvas.color (Render.draw_cell getTerrain g p sx sy cv) = color t
      /\ Canvas.ctx (Render.draw_cell getTerrain g p sx sy cv)
         = (Canvas.ctx cv ++
            [Canvas.set_fillStyle (color t);
             Canvas.set_font (Canvas.font cv);
             Canvas.fillText (label t)
                             (inject_Z (sx * Canvas.fontSize cv))
                             (inject_Z (sy * Canvas.fontSize cv))])%list).
Proof.
  intros w t. unfold Render.draw_cell. fold w. fold t.
  destruct ((sx =? Render.screenCenterX g) && (sy =? Render.screenCenterY g))
    eqn:Hcenter.
  - split; [reflexivity |]. intros Hw. exfalso. apply Hw.
    apply andb_true_iff in Hcenter. destruct Hcenter as [Hx Hy].
    apply Z.eqb_eq in Hx, Hy. now apply screenToWorld_player.
  - split.
    + intros Hw. apply screenToWorld_player in Hw. destruct Hw as [-> ->].
      rewrite !Z.eqb_refl in Hcenter. discriminate.
    + intros _. split; [reflexivity |]. cbn.
      rewrite <- !app_assoc. reflexivity.
Qed.

(** X17: up to the end of its loops [draw] clears the canvas, fills it with
    black and then, column by column, asks for every cell but the one of the
    centre the colour of its terrain, the font of the cells and its label,
    whatever colour and font the canvas had; on a grid of at least one
    column and one row that is one text per cell but one. *)
Theorem draw_world_calls (g : Render.Grid) (p : Position) (cv : Canvas.t) :
  let W := inject_Z (Canvas.canvas_width cv) in
  let H := inject_Z (Canvas.canvas_height cv) in
  let painted := flat_map (Render.cell_calls getTerrain g p cv)
                          (Render.cells_of g) in
  Canvas.ctx (Render.draw_world getTerrain g p cv)
  = (Canvas.ctx cv
     ++ [Canvas.clearRect 0 0 W H;
         Canvas.set_fillStyle "black";
         Canvas.fillRect 0 0 W H]
     ++ painted)%list
  /\ (1 <= Render.cellsAcross g -> 1 <= Render.cellsDown g ->
      Z.of_nat (hits Render.is_fillText painted)
      = Render.cellsAcross g * Render.cellsDown g - 1).
Proof.
  intros W H painted. split.
  - apply draw_world_run.
  - intros Hx Hy. unfold painted. rewrite fillText_per_cell.
    pose proof (filter_length (Render.is_center g) (Render.cells_of g))
      as Hsplit.
    fold (hits (Render.is_center g) (Render.cells_of g)) in Hsplit.
    fold (hits (fun cell => negb (Render.is_center g cell))
               (Render.cells_of g)) in Hsplit.
    rewrite cells_of_length, hits_cells in Hsplit.
    + nia.
    + unfold Render.screenCenterX.
      split; [apply Z.div_pos; lia | apply Z.div_lt_upper_bound; lia].
    + unfold Render.screenCenterY.
      split; [apply Z.div_pos; lia | apply Z.div_lt_upper_bound; lia].
Qed.

End DrawFacts.


(** ** The two arithmetics *)

(** [exact] gives the chance and the level of the definitions without
    rounding. *)
Lemma exact_is_unrounded (t : Terrain) (chosen : Monster) (r : Q) (n : Z) :
  chance exact t = encounterChance t
  /\ mul exact r n = (r * inject_Z n)%Q
  /\ level_of exact chosen r = rollLevel chosen r.
Proof. repeat split. Qed.

(** With the doubles, [8 / 10] is the double nearest to [0.8], which is
    above [8/10]: on a draw equal to it the check goes on, and with no
    candidate it throws, where the arithmetic without rounding returns. *)
Example doubles_at_eight_tenths :
  (div doubles 8 10 == double_0_8)%Q
  /\ (div exact 8 10 < double_0_8)%Q
  /\ (exists m',
        exec (checkForEncounters marsh_MONSTERS demo_getAdjacentTerrain
                                 JSON_stringify_plain doubles) on_the_scree
        = (m', Failed TypeError)
        /\ log m' = [ERandom double_0_8; ERandom double_0_8])
  /\ (exists m',
        exec marsh_checkForEncounters on_the_scree = (m', Done tt)
        /\ log m' = [ERandom double_0_8]).
Proof.
  split; [reflexivity |]. split; [reflexivity |]. split.
  - eexists. split; reflexivity.
  - eexists. split; reflexivity.
Qed.

(** With the doubles, the draw nearest to [0.7] rolls the level [7] for a
    template of the levels [3] to [8]: the product is rounded up to
    [3.5]; without rounding the level is [6]. *)
Example doubles_at_seven_tenths :
  (mul doubles double_0_7 5 == 7 # 2)%Q
  /\ (mul exact double_0_7 5 < 7 # 2)%Q
  /\ level_of doubles ogre double_0_7 = 7
  /\ level_of exact ogre double_0_7 = 6.
Proof. repeat split. Qed.

(** With the doubles too, the draw [0] on terrain of difficulty [0] starts
    an encounter. *)
Example difficulty_zero_with_doubles :
  exists m' req k,
    exec (checkForEncounters demo_MONSTERS demo_getAdjacentTerrain
                             JSON_stringify_plain doubles) on_the_plains
    = (m', AwaitingFetch req k)
    /\ log m' = [ERandom 0; ERandom 0; ERandom 0;
                 EDispatch (ui_isPaused true); EDraw; EFetch req].
Proof. eexists _, _, _. split; reflexivity. Qed.

(** With the doubles too, the check with no candidate throws after two
    draws, and the check after a step east reads the plains before the
    world info of the marsh is dispatched. *)
Example no_candidate_and_step_east_with_doubles :
  (exists m',
      exec (checkForEncounters marsh_MONSTERS demo_getAdjacentTerrain
                               JSON_stringify_plain doubles) in_the_highlands
      = (m', Failed TypeError)
      /\ log m' = [ERandom (1 # 2); ERandom (1 # 2)])
  /\ (exists m',
        exec (on_PLAYER_MOVE demo_MONSTERS demo_getTerrain
                             demo_getAdjacentTerrain JSON_stringify_plain
                             doubles) stepped_east
        = (m', Done tt)
        /\ log m' = [ERandom (1 # 2);
                     EDispatch (world_info (Some "Marsh") (Some swamp));
                     EDraw; EDraw]).
Proof. split; eexists; split; reflexivity. Qed.

(** ** Examples of the further properties *)

Lemma chosen_is_valid_candidate_witness :
  In bogling demo_MONSTERS
  /\ (validBiomes bogling = []
      \/ exists b, Some "Marsh" = Some b /\ In b (validBiomes bogling)).
Proof.
  apply (@chosen_is_valid_candidate demo_MONSTERS (Some "Marsh") (11 # 2)
           bogling).
  reflexivity.
Defined.

Lemma chosen_on_its_interval_witness :
  chosenMonster [wolf; bogling] 5 = Some bogling.
Proof.
  apply (@chosen_on_its_interval [wolf; bogling] 5 1%nat bogling).
  - reflexivity.
  - cbv. discriminate.
  - reflexivity.
Defined.


Lemma universal_monster_never_fails_witness :
  exists m',
    exec demo_checkForEncounters in_the_highlands = (m', Done tt)
    \/ exists req k,
         exec demo_checkForEncounters in_the_highlands
         = (m', AwaitingFetch req k).
Proof.
  apply (@universal_monster_never_fails demo_MONSTERS demo_getAdjacentTerrain
           JSON_stringify_plain exact in_the_highlands wolf).
  - left. reflexivity.
  - reflexivity.
Defined.

Lemma unreadable_body_fails_after_resume_witness :
  exists m',
    exec_async (generateAi JSON_stringify_plain "prompt")
               (Fulfilled null_response) in_the_marsh
    = (m', Failed TypeError)
    /\ isPaused (ui (store m')) = false
    /\ log m' = [EDispatch (ui_isPaused true); EDraw;
                 EFetch (api_request JSON_stringify_plain "prompt");
                 EJson null_response;
                 EDispatch (ui_isPaused false); EDraw; EDraw].
Proof.
  apply (@unreadable_body_fails_after_resume JSON_stringify_plain in_the_marsh
           "prompt" null_response VNull TypeError); reflexivity.
Defined.

Lemma encounter_then_close_witness :
  exists m1 m2,
    exec_async demo_checkForEncounters (Fulfilled (ok_response "A wolf howls."))
               in_the_marsh = (m1, Done tt)
    /\ isPaused (ui (store m1)) = true
    /\ exec on_WINDOW_CLOSE m1 = (m2, Done tt)
    /\ store m2 = store in_the_marsh.
Proof.
  apply (@encounter_then_close demo_MONSTERS demo_getAdjacentTerrain
           JSON_stringify_plain exact in_the_marsh swamp wolf
           (ok_response "A wolf howls.")
           (VObj [("text", VStr "A wolf howls.")])
           (VStr "A wolf howls."));
    try reflexivity.
  cbv. discriminate.
Defined.

Lemma help_key_pauses_witness :
  let m' := press_keys ["h"; "ArrowLeft"; "h"; "r"] started in
  isPaused (ui (store m')) = true
  /\ log m' = (log started ++
       [EEmit (WINDOW_OPEN help_window);
        EDispatch (ui_isPaused true); EDraw;
        ENewWindow help_window])%list
  /\ store (fst (exec on_WINDOW_CLOSE m')) = store started.
Proof.
  apply (@help_key_pauses started "h" ["ArrowLeft"; "h"; "r"]).
  - reflexivity.
  - left. reflexivity.
Defined.

(** The help reads [R: Rest]; the [switch] knows the lower-case letter. *)
Lemma other_keys_are_ignored_witness :
  exec (on_keydown "R") started = (started, Done tt).
Proof.
  apply (@other_keys_are_ignored started "R").
  cbn. intuition discriminate.
Defined.

Lemma cells_cover_witness :
  1 <= Render.cells 800 16
  /\ (Render.cells 800 16 - 1) * 16 <= 800 < Render.cells 800 16 * 16
  /\ 0 <= Render.cells 800 16 / 2 < Render.cells 800 16
  /\ (Render.cells 800 16 / 2) * 16 <= 800.
Proof.
  apply (@cells_cover 800 16); lia.
Defined.

Example grid_of_800_by_600 :
  Render.grid_of 800 600 (Canvas.create 800 600)
  = {| Render.cellsAcross := 51; Render.cellsDown := 38 |}
  /\ Render.screenToWorld {| Render.cellsAcross := 51; Render.cellsDown := 38 |}
                          east 25 19 = east
  /\ Render.screenToWorld {| Render.cellsAcross := 51; Render.cellsDown := 38 |}
                          east 0 0 = {| pos_x := -24; pos_y := -19 |}.
Proof. repeat split. Qed.

Example draw_world_2_by_1 :
  Canvas.ctx (Render.draw_world demo_getTerrain
                {| Render.cellsAcross := 2; Render.cellsDown := 1 |}
                east (Canvas.create 20 10))
  = [Canvas.clearRect 0 0 20 10;
     Canvas.set_fillStyle "black";
     Canvas.fillRect 0 0 20 10;
     Canvas.set_fillStyle "#7ec850";
     Canvas.set_font "16px ui-monospace undefined";
     Canvas.fillText "." 0 0].
Proof. reflexivity. Qed.
